(** * Release-notes generator: the two scripts, embedded and verified

    [extract_webdev_merges.py] (the Merge Extractor) filters merge-commit
    lines; [release_notes.py] (the Release Note Builder) parses them into a
    task registry, groups the issue keys and renders a Markdown document.

    Text.  A Python [str] is modelled as a Rocq [string]; a character
    stands for the code point of the same number, so the model covers text
    whose code points are below 256.  Case mapping, white space and digits
    follow Python on that range.  The Cyrillic (and emoji) literals of the
    scripts are kept as their UTF-8 bytes: the scripts only concatenate,
    print and compare them for equality.

    Regular expressions.  Both scripts splice the issue prefix into a
    pattern without escaping it.  The model takes the prefix as literal
    text, which is what the splice gives when the prefix has none of the
    special characters of the pattern syntax ([regex_literal]); theorems
    that quantify over the prefix and depend on how it is matched carry
    that condition.

    The tracker.  The Builder sets up its tracker client and asks it
    once; whether the client can be set up and what it answers are the
    parameter of [run].  Reading the configuration happens before the
    modelled part. *)

From Stdlib Require Import String Ascii List Bool Arith PeanoNat ZArith Lia.
From Stdlib Require Import Sorting.Sorted Sorting.Permutation.
From Stdlib Require Import Numbers.DecimalString.
Import ListNotations.
Local Open Scope string_scope.
Local Open Scope bool_scope.

(** ** Python string operations *)

Module PyStr.

Definition LF : ascii := ascii_of_nat 10.
Definition CR : ascii := ascii_of_nat 13.
Definition QUOTE : ascii := "'"%char.

(** [c.lower()] for one code point below 256: A-Z and the upper-case
    letters of the Latin-1 supplement (U+00C0..U+00DE but the
    multiplication sign U+00D7) move up by 32. *)
Definition lower_char (c : ascii) : ascii :=
  let n := nat_of_ascii c in
  if (((65 <=? n) && (n <=? 90))
      || ((192 <=? n) && (n <=? 222) && negb (n =? 215)))%nat
  then ascii_of_nat (n + 32)
  else c.

(** [s.lower()] *)
Fixpoint lower (s : string) : string :=
  match s with
  | "" => ""
  | String c r => String (lower_char c) (lower r)
  end.

(** [c.isspace()] below 256 *)
Definition is_space (c : ascii) : bool :=
  let n := nat_of_ascii c in
  (((9 <=? n) && (n <=? 13)) || ((28 <=? n) && (n <=? 32))
   || (n =? 133) || (n =? 160))%nat.

(** a decimal digit, as [\d] and [int] see it below 256 *)
Definition is_digit (c : ascii) : bool :=
  let n := nat_of_ascii c in ((48 <=? n) && (n <=? 57))%nat.

Fixpoint lstrip (s : string) : string :=
  match s with
  | "" => ""
  | String c r => if is_space c then lstrip r else s
  end.

Fixpoint rstrip (s : string) : string :=
  match s with
  | "" => ""
  | String c r =>
      match rstrip r with
      | "" => if is_space c then "" else String c ""
      | r' => String c r'
      end
  end.

(** [s.strip()] *)
Definition strip (s : string) : string := rstrip (lstrip s).

(** the rest of [s] after its prefix [p], when [s] starts with [p] *)
Fixpoint strip_prefix (p s : string) : option string :=
  match p, s with
  | "", _ => Some s
  | String a p', String b s' =>
      if Ascii.eqb a b then strip_prefix p' s' else None
  | String _ _, "" => None
  end.

(** the same, comparing without regard to letter case *)
Fixpoint strip_prefix_ci (p s : string) : option string :=
  match p, s with
  | "", _ => Some s
  | String a p', String b s' =>
      if Ascii.eqb (lower_char a) (lower_char b)
      then strip_prefix_ci p' s' else None
  | String _ _, "" => None
  end.

Definition is_some {A} (o : option A) : bool :=
  match o with Some _ => true | None => false end.

(** [s.startswith(p)] *)
Definition startswith (p s : string) : bool := is_some (strip_prefix p s).

(** [p in s] *)
Fixpoint contains (p s : string) : bool :=
  startswith p s
  || match s with
     | "" => false
     | String _ r => contains p r
     end.

(** [p in s] without regard to letter case *)
Fixpoint contains_ci (p s : string) : bool :=
  is_some (strip_prefix_ci p s)
  || match s with
     | "" => false
     | String _ r => contains_ci p r
     end.

(** [c in s] for one character *)
Fixpoint has_char (c : ascii) (s : string) : bool :=
  match s with
  | "" => false
  | String d r => Ascii.eqb d c || has_char c r
  end.

(** [s.split(sep, 1)] for a one-character separator: one piece when
    [sep] is absent, else the text before the first [sep] and all the
    text after it. *)
Fixpoint split1 (sep : ascii) (s : string) : list string :=
  match s with
  | "" => [""]
  | String c r =>
      if Ascii.eqb c sep then [""; r]
      else match split1 sep r with
           | h :: t => String c h :: t
           | [] => [String c ""]
           end
  end.

(** [s.split(sep)] for a one-character separator *)
Fixpoint split (sep : ascii) (s : string) : list string :=
  match s with
  | "" => [""]
  | String c r =>
      if Ascii.eqb c sep then "" :: split sep r
      else match split sep r with
           | h :: t => String c h :: t
           | [] => [String c ""]
           end
  end.

(** [sep.join(l)] *)
Fixpoint join (sep : string) (l : list string) : string :=
  match l with
  | [] => ""
  | [x] => x
  | x :: r => x ++ sep ++ join sep r
  end.

(** [str(n)] for a natural number *)
Definition str_of_nat (n : nat) : string :=
  NilZero.string_of_uint (Nat.to_uint n).

Definition digit_val (c : ascii) : Z := Z.of_nat (nat_of_ascii c - 48).

(** The digits of an [int] literal after its sign: groups of digits
    with single underscores between them.  [prev] tells whether the
    previous character was a digit. *)
Fixpoint int_digits (acc : Z) (prev : bool) (s : string) : option Z :=
  match s with
  | "" => if prev then Some acc else None
  | String c r =>
      if is_digit c then int_digits (10 * acc + digit_val c)%Z true r
      else if Ascii.eqb c "_" && prev then
             match r with
             | String d _ => if is_digit d then int_digits acc false r else None
             | "" => None
             end
      else None
  end.

(** The interpreter refuses to convert a text of more decimal digits
    than this to an integer ([sys.get_int_max_str_digits()], 4300 by
    default since Python 3.11). *)
Definition MAX_STR_DIGITS : Z := 4300.

(** the number of decimal digits in [s] *)
Fixpoint count_digits (s : string) : nat :=
  match s with
  | "" => 0
  | String c r => (if is_digit c then 1 else 0) + count_digits r
  end.

(** an [int] literal after its sign; [None] stands for [ValueError],
    raised for a malformed literal and for one of too many digits *)
Definition int_literal (r : string) : option Z :=
  match int_digits 0 false r with
  | Some n =>
      if (Z.of_nat (count_digits r) <=? MAX_STR_DIGITS)%Z then Some n
      else None
  | None => None
  end.

(** [int(s)]: surrounding white space, an optional sign, decimal
    digits; [None] stands for [ValueError]. *)
Definition int (s : string) : option Z :=
  match strip s with
  | String "+" r => int_literal r
  | String "-" r => option_map Z.opp (int_literal r)
  | r => int_literal r
  end.

(** A character that is its own lower case and the lower case of no
    other character. *)
Definition caseless (d : ascii) : Prop :=
  lower_char d = d /\ forall c, lower_char c = d -> c = d.

(** None of the characters that the pattern syntax of [re] treats
    specially: such text, spliced into a pattern, matches itself. *)
Definition regex_special (c : ascii) : bool :=
  has_char c ".^$*+?{}[]\|()".

Fixpoint regex_literal (s : string) : bool :=
  match s with
  | "" => true
  | String c r => negb (regex_special c) && regex_literal r
  end.

End PyStr.

(** ** The Merge Extractor ([extract_webdev_merges.py]) *)

Module Extractor.
Import PyStr.

(** The rest of a quoted name at the head of [s]: characters other
    than the quote, then the closing quote.  It matches exactly when
    some quote occurs in [s]. *)
Definition closes (s : string) : bool := has_char QUOTE s.

(** The quoted name of the prefixed pattern at the head of [s]:
    characters other than the quote, then a slash, the prefix and a
    dash (letter case ignored), then characters other than the quote
    and the closing quote.  Every place the leading run can stop at is
    tried. *)
Fixpoint branch_with_prefix (prefix : string) (s : string) : bool :=
  match strip_prefix_ci ("/" ++ prefix ++ "-") s with
  | Some t => closes t
  | None => false
  end
  || match s with
     | "" => false
     | String c r =>
         if Ascii.eqb c QUOTE then false else branch_with_prefix prefix r
     end.

(** [pattern.search(line)] as a truth value for the pattern compiled
    with a prefix: the text Merge branch, a space and a quote, then the
    quoted name above; [re.IGNORECASE]. *)
Fixpoint search_prefixed (prefix : string) (line : string) : bool :=
  match strip_prefix_ci "Merge branch '" line with
  | Some s => branch_with_prefix prefix s
  | None => false
  end
  || match line with
     | "" => false
     | String _ r => search_prefixed prefix r
     end.

(** [pattern.search(line)] as a truth value for the pattern compiled
    without a prefix: the text Merge branch and a space;
    [re.IGNORECASE]. *)
Definition search_any (line : string) : bool :=
  contains_ci "Merge branch " line.

(** [pattern.search(line)] for the pattern [extract_lines] compiles:
    an empty prefix is falsy and selects the second pattern. *)
Definition pattern_search (prefix : string) (line : string) : bool :=
  match prefix with
  | "" => search_any line
  | _ => search_prefixed prefix line
  end.

Definition extract_lines (lines : list string) (prefix : string)
  : list string :=
  filter (pattern_search prefix) lines.

(** *** [main]: arguments, line source, output *)

Record args := {
  since : option string;
  max : nat;
  prefix : string;
  from_file : option string;
  output : option string
}.

(** [args.output or 'merges.txt']: [None] and the empty string are
    both falsy. *)
Definition resolved_output (a : args) : string :=
  match output a with
  | None | Some "" => "merges.txt"
  | Some o => o
  end.

(** Text-mode reading translates every line ending to a line feed. *)
Fixpoint universal_newlines (s : string) : string :=
  match s with
  | "" => ""
  | String c r =>
      if Ascii.eqb c CR then
        match r with
        | String d r' =>
            if Ascii.eqb d LF then String LF (universal_newlines r')
            else String LF (universal_newlines r)
        | "" => String LF ""
        end
      else String c (universal_newlines r)
  end.

(** [f.readlines()] on translated text: each line keeps its line
    feed; text after the last line feed is a last line without one. *)
Fixpoint split_keepends (s : string) : list string :=
  match s with
  | "" => []
  | String c r =>
      if Ascii.eqb c LF then String c "" :: split_keepends r
      else match split_keepends r with
           | h :: t => String c h :: t
           | [] => [String c ""]
           end
  end.

Definition readlines (content : string) : list string :=
  split_keepends (universal_newlines content).

(** What a run leaves behind. *)
Inductive effect :=
| Saved (path text : string) (n : nat)
    (* the output file written, the count reported *)
| CountOnly (n : nat)
    (* nothing written, the count reported *)
| Aborted.
    (* the line source failed: git missing or failing, input file absent *)

(** [main] after argument parsing.  [source] is what the line source
    delivers: the lines of [git log] or of the input file, or its
    failure. *)
Definition main (a : args) (source : option (list string)) : effect :=
  let output := resolved_output a in
  match source with
  | None => Aborted
  | Some lines =>
      let lines := extract_lines lines (prefix a) in
      let output_text := join (String LF "") lines in
      match output with
      | "" => CountOnly (List.length lines)
      | _ => Saved output output_text (List.length lines)
      end
  end.

End Extractor.

(** ** The Release Note Builder ([release_notes.py]) *)

Module Builder.
Import PyStr.

(** *** Dictionaries

    A Python [dict] keeps its keys in insertion order and the scripts
    iterate over it, so a dictionary is an association list without
    repeated keys, newest key last. *)

Definition dict (V : Type) : Type := list (string * V).

(** [d.get(k)] *)
Fixpoint dict_get {V} (k : string) (d : dict V) : option V :=
  match d with
  | [] => None
  | (k', v) :: r => if String.eqb k' k then Some v else dict_get k r
  end.

(** [k in d] *)
Definition dict_mem {V} (k : string) (d : dict V) : bool :=
  is_some (dict_get k d).

(** [d[k] = v]: an existing key keeps its place. *)
Fixpoint dict_set {V} (k : string) (v : V) (d : dict V) : dict V :=
  match d with
  | [] => [(k, v)]
  | (k', v') :: r =>
      if String.eqb k' k then (k', v) :: r else (k', v') :: dict_set k v r
  end.

(** [d[k].append(x)] on a [defaultdict(list)] *)
Fixpoint dict_append (k : string) (x : string) (d : dict (list string))
  : dict (list string) :=
  match d with
  | [] => [(k, [x])]
  | (k', l) :: r =>
      if String.eqb k' k then (k', (l ++ [x])%list) :: r
      else (k', l) :: dict_append k x r
  end.

(** [list(d.keys())] *)
Definition dict_keys {V} (d : dict V) : list string := map fst d.

(** *** Branch types *)

Inductive BranchType := FEATURE | MOD | BUGFIX | OTHER.

(** the tuple of aliases that is the value of each member *)
Definition aliases (b : BranchType) : list string :=
  match b with
  | FEATURE => ["feature"]
  | MOD => ["mod"; "modification"; "refactor"]
  | BUGFIX => ["bugfix"; "bugfixes"; "bug"; "fix"; "hotfix"]
  | OTHER => []
  end.

Definition BranchType_eqb (a b : BranchType) : bool :=
  match a, b with
  | FEATURE, FEATURE | MOD, MOD | BUGFIX, BUGFIX | OTHER, OTHER => true
  | _, _ => false
  end.

(** [x in t] for a tuple of strings *)
Definition in_tuple (x : string) (t : list string) : bool :=
  existsb (String.eqb x) t.

Definition classify_branch_type (pref : string) : BranchType :=
  let pref := lower pref in
  if in_tuple pref (aliases FEATURE) then FEATURE
  else if in_tuple pref (aliases MOD) then MOD
  else if in_tuple pref (aliases BUGFIX) then BUGFIX
  else OTHER.

(** [list_to_str(ids, quot)] with a quote given *)
Definition list_to_str (ids : list string) (quot : string) : string :=
  join "," (map (fun x => quot ++ x ++ quot) ids).

Definition feature_types : string := list_to_str (aliases FEATURE) "`".
Definition mod_types : string := list_to_str (aliases MOD) "`".
Definition bugfix_types : string := list_to_str (aliases BUGFIX) "`".
Definition other_types : string := list_to_str (aliases OTHER) "`".

(** *** Parsing *)

(** The longest run of characters other than the quote at the head of
    [s], when a quote ends it. *)
Fixpoint quoted_run (s : string) : option string :=
  match s with
  | "" => None
  | String c r =>
      if Ascii.eqb c QUOTE then Some ""
      else option_map (String c) (quoted_run r)
  end.

(** Group 1 of the quoted name matched at the head of [s]: one or more
    characters other than the quote, then a quote. *)
Definition quoted_name (s : string) : option string :=
  match quoted_run s with
  | Some "" => None
  | o => o
  end.

(** [re.search] for the text Merge branch, a space, a quote and a
    quoted name: group 1 of the leftmost match. *)
Fixpoint search_merge_branch (line : string) : option string :=
  match
    match strip_prefix "Merge branch '" line with
    | Some s => quoted_name s
    | None => None
    end
  with
  | Some b => Some b
  | None =>
      match line with
      | "" => None
      | String _ r => search_merge_branch r
      end
  end.

(** the longest run of decimal digits at the head of [s] *)
Fixpoint digits_run (s : string) : string :=
  match s with
  | "" => ""
  | String c r => if is_digit c then String c (digits_run r) else ""
  end.

(** [base_key_pattern.match(task_key)], group 1: the prefix, a dash
    and one or more digits, anchored at the start. *)
Definition base_key_match (ISSUE_PREFIX task_key : string)
  : option string :=
  match strip_prefix (ISSUE_PREFIX ++ "-") task_key with
  | Some r =>
      match digits_run r with
      | "" => None
      | d => Some (ISSUE_PREFIX ++ "-" ++ d)
      end
  | None => None
  end.

(** What the loop body does with one line: it leaves the iteration at
    one of the [continue] statements, numbered by the parsing step they
    belong to, or it reaches the registry with a base key and a branch
    type. *)
Inductive line_result :=
| Skipped (step : nat)
| Resolved (base_key : string) (branch_type : BranchType).

(** the steps on the task key: prefix check, typo guard, base key *)
Definition parse_task (ISSUE_PREFIX prefix task_key : string)
  : line_result :=
  if negb (startswith (ISSUE_PREFIX ++ "-") task_key) then Skipped 4
  else if contains ISSUE_PREFIX (lower task_key) then Skipped 5
  else match base_key_match ISSUE_PREFIX task_key with
       | None => Skipped 6
       | Some base_key => Resolved base_key (classify_branch_type prefix)
       end.

(** the steps on the quoted branch name *)
Definition parse_branch (ISSUE_PREFIX full_branch : string)
  : line_result :=
  if negb (contains "/" full_branch) then Skipped 3
  else match split1 "/" full_branch with
       | [prefix; task_key] => parse_task ISSUE_PREFIX prefix task_key
       | _ => Skipped 3 (* ValueError on unpacking *)
       end.

Definition parse_line (ISSUE_PREFIX line : string) : line_result :=
  let line := strip line in
  if String.eqb line "" || contains "refs/heads/develop" line
     || contains "remote-tracking" line
  then Skipped 1
  else match search_merge_branch line with
       | None => Skipped 2
       | Some full_branch => parse_branch ISSUE_PREFIX full_branch
       end.

(** the end of the loop body: a new base key is recorded *)
Definition record (tasks : dict BranchType) (r : line_result)
  : dict BranchType :=
  match r with
  | Skipped _ => tasks
  | Resolved base_key branch_type =>
      if dict_mem base_key tasks then tasks
      else dict_set base_key branch_type tasks
  end.

(** the loop from a given registry *)
Definition parse_from (ISSUE_PREFIX : string) (tasks : dict BranchType)
  (merge_lines : list string) : dict BranchType :=
  fold_left (fun tasks line => record tasks (parse_line ISSUE_PREFIX line))
    merge_lines tasks.

Definition parse_lines (ISSUE_PREFIX : string) (merge_lines : list string)
  : dict BranchType :=
  parse_from ISSUE_PREFIX [] merge_lines.

(** *** Grouping *)

(** the dictionary key [make_group] files a branch type under *)
Definition group_name (b : BranchType) : string :=
  match b with
  | FEATURE => "Функциональность (" ++ feature_types ++ ")"
  | MOD => "Доработки / Модификации (" ++ mod_types ++ ")"
  | BUGFIX => "Багфиксы (" ++ bugfix_types ++ ")"
  | OTHER => "Прочее (" ++ other_types
  end.

Definition make_group (jira_tasks : dict BranchType)
  : dict (list string) :=
  fold_left (fun jira_groups kb => dict_append (group_name (snd kb)) (fst kb) jira_groups)
    jira_tasks [].

(** *** Sorting *)

(** [int(x.split('-')[1])]; [None] stands for [IndexError] or
    [ValueError]. *)
Definition sort_key (x : string) : option Z :=
  match nth_error (split "-" x) 1 with
  | Some d => int d
  | None => None
  end.

(** the keys of all elements, computed before any comparison *)
Fixpoint keyed (l : list string) : option (list (Z * string)) :=
  match l with
  | [] => Some []
  | x :: r =>
      match sort_key x, keyed r with
      | Some n, Some r' => Some ((n, x) :: r')
      | _, _ => None
      end
  end.

(** [sorted] is stable: of two elements with equal keys the earlier
    stays first.  An insertion sort from the right that puts an element
    before the first one whose key is not smaller does the same. *)
Fixpoint insert_keyed (a : Z * string) (l : list (Z * string))
  : list (Z * string) :=
  match l with
  | [] => [a]
  | b :: r =>
      if (fst a <=? fst b)%Z then a :: l else b :: insert_keyed a r
  end.

Fixpoint sort_keyed (l : list (Z * string)) : list (Z * string) :=
  match l with
  | [] => []
  | a :: r => insert_keyed a (sort_keyed r)
  end.

(** [sorted(keys, key=lambda x: int(x.split('-')[1]))] *)
Definition sorted_keys (keys : list string) : option (list string) :=
  option_map (fun l => map snd (sort_keyed l)) (keyed keys).

(** *** Tracker records and rendering *)

Record Issue := {
  key : string;
  summary : string;  (* issue.fields.summary *)
  status : string    (* issue.fields.status.__str__() *)
}.

(** [issue_data]: the records by key, then [None] for every base key
    the tracker did not return. *)
Definition build_issue_data (issues : list Issue) (base_keys : list string)
  : dict (option Issue) :=
  let found :=
    fold_left (fun d i => dict_set (key i) (Some i) d) issues [] in
  fold_left (fun d k => if dict_mem k d then d else dict_set k None d)
    base_keys found.

(** the bullet of one key; [None] stands for [KeyError] *)
Definition bullet (issue_data : dict (option Issue)) (k : string)
  : option string :=
  match dict_get k issue_data with
  | None => None
  | Some issue =>
      let '(title, st) :=
        match issue with
        | Some i => (strip (summary i), status i)
        | None => ("[Название не найдено]", "[Todo]")
        end in
      Some ("  + " ++ title ++ " (задача " ++ k ++ ")[" ++ st ++ "]")
  end.

Fixpoint bullets (issue_data : dict (option Issue)) (ks : list string)
  : option (list string) :=
  match ks with
  | [] => Some []
  | k :: r =>
      match bullet issue_data k, bullets issue_data r with
      | Some b, Some r' => Some (b :: r')
      | _, _ => None
      end
  end.

(** the lines one group adds: nothing for an empty group, else the
    header, the bullets in sorted order and an empty line *)
Definition render_group (issue_data : dict (option Issue))
  (g : string * list string) : option (list string) :=
  let '(name, keys) := g in
  match keys with
  | [] => Some []
  | _ =>
      match sorted_keys keys with
      | None => None
      | Some sk =>
          match bullets issue_data sk with
          | None => None
          | Some bs => Some (("- **" ++ name ++ ":**") :: List.app bs [""])
          end
      end
  end.

Fixpoint render_groups (issue_data : dict (option Issue))
  (groups : dict (list string)) : option (list string) :=
  match groups with
  | [] => Some []
  | g :: r =>
      match render_group issue_data g, render_groups issue_data r with
      | Some a, Some b => Some (a ++ b)%list
      | _, _ => None
      end
  end.

Record config := {
  RELEASE_VERSION : string;
  DEVELOP_VERSION : string;
  RELEASE_DATE : string;
  ISSUE_PREFIX : string
}.

(** [output_lines]; [None] stands for an uncaught exception. *)
Definition output_lines (c : config) (issue_data : dict (option Issue))
  (groups : dict (list string)) : option (list string) :=
  match render_groups issue_data groups with
  | None => None
  | Some body =>
      Some (List.app
              ["### Release Notes";
               "";
               "Release Version: " ++ RELEASE_VERSION c;
               "Develop Version: " ++ DEVELOP_VERSION c;
               "Дата релиза: " ++ RELEASE_DATE c;
               "";
               "### Основные изменения:";
               ""]
              (List.app body ["#release #backend #patch"]))
  end.

(** *** A run of the script, from the parsing of [merges.txt] on *)

Inductive ending :=
| Exit (code : nat)  (* [exit], or the end of the script (0) *)
| Uncaught.          (* an exception nobody handles *)

Record outcome := {
  stdout : list string;              (* what [print] received, in order *)
  release_notes_md : option string;  (* the text written to the file, if any *)
  queries : list string;             (* the JQL of each tracker query *)
  how : ending
}.

(** [jira_api.search_issues(jql, fields=..., maxResults=n)]: the text
    of the exception it raises, or the issues it returns. *)
Definition search : Type := string -> nat -> string + list Issue.

(** The tracker as the run meets it: [JIRA(JIRA_URL, token_auth=...)]
    gives a client with its [search_issues], or raises ([None]); the
    script calls it outside of any [try]. *)
Definition tracker : Type := option search.

Definition run (c : config) (merge_lines : list string)
  (jira : tracker) : outcome :=
  let tasks := parse_lines (ISSUE_PREFIX c) merge_lines in
  let base_keys := dict_keys tasks in
  match base_keys with
  | [] =>
      {| stdout := ["Нет корректных задач " ++ ISSUE_PREFIX c ++ " для обработки."];
         release_notes_md := None;
         queries := [];
         how := Exit 0 |}
  | _ =>
      let asking :=
        "Запрашиваю " ++ str_of_nat (List.length base_keys) ++ " задач из Jira..." in
      match jira with
      | None =>
          {| stdout := [asking];
             release_notes_md := None;
             queries := [];
             how := Uncaught |}
      | Some search_issues =>
          let jql := "issueKey IN (" ++ join "," base_keys ++ ")" in
          match search_issues jql (List.length base_keys) with
          | inl e =>
              {| stdout := [asking; "❌ Ошибка при запросе к Jira: " ++ e];
                 release_notes_md := None;
                 queries := [jql];
                 how := Exit 1 |}
          | inr issues =>
              let issue_data := build_issue_data issues base_keys in
              let groups := make_group tasks in
              match output_lines c issue_data groups with
              | None =>
                  {| stdout := [asking];
                     release_notes_md := None;
                     queries := [jql];
                     how := Uncaught |}
              | Some lines =>
                  let final_output := join (String LF "") lines in
                  {| stdout := [asking; final_output];
                     release_notes_md := Some final_output;
                     queries := [jql];
                     how := Exit 0 |}
              end
          end
      end
  end.

End Builder.

(** ** The patterns of the Extractor, as the specification words them *)

Module ExtractorSpec.
Import PyStr.

(** no quote in [s] *)
Definition quote_free (s : string) : Prop := has_char QUOTE s = false.

(** The line has the text Merge branch and a space somewhere, letter
    case ignored. *)
Definition merge_message (line : string) : Prop :=
  exists a m b, line = a ++ m ++ b /\ lower m = lower "Merge branch ".

(** The line has, letter case ignored, the text Merge branch, a space
    and a quoted name made of text without quotes, a slash, the prefix,
    a dash and text without quotes. *)
Definition prefixed_merge_message (prefix line : string) : Prop :=
  exists a m x p y b,
    line = a ++ m ++ x ++ "/" ++ p ++ "-" ++ y ++ "'" ++ b
    /\ lower m = lower "Merge branch '"
    /\ quote_free x /\ lower p = lower prefix /\ quote_free y.

(** a prefix or branch token: no quote, slash or dash in it *)
Definition token (s : string) : Prop :=
  has_char QUOTE s = false /\ has_char "/" s = false
  /\ has_char "-" s = false.

(** neither a line feed nor a carriage return in [s] *)
Definition one_line (s : string) : Prop :=
  has_char LF s = false /\ has_char CR s = false.

(** the lines with a line feed after each but the last *)
Fixpoint with_line_feeds (l : list string) : list string :=
  match l with
  | [] => []
  | [x] => [x]
  | x :: r => (x ++ String LF "") :: with_line_feeds r
  end.

(** the line without its final line feed, if it has one *)
Fixpoint chomp (s : string) : string :=
  match s with
  | "" => ""
  | String c r =>
      match r with
      | "" => if Ascii.eqb c LF then "" else s
      | _ => String c (chomp r)
      end
  end.

(** One run writes its lines to the output file, a second run reads
    that file back ([--from-file]) with the prefix filter off: the lines
    the second run keeps. *)
Definition reread (kept : list string) : list string :=
  Extractor.extract_lines
    (Extractor.readlines (join (String LF "") kept)) "".

End ExtractorSpec.

(** ** Notions the claims about the Builder are worded with *)

Module BuilderSpec.
Import PyStr Builder.

(** the number of places of [s] at which [p] occurs *)
Fixpoint occurrences (p s : string) : nat :=
  (if startswith p s then 1 else 0)
  + match s with
    | "" => 0
    | String _ r => occurrences p r
    end.

(** every character is a decimal digit *)
Fixpoint all_digits (s : string) : bool :=
  match s with
  | "" => true
  | String c r => is_digit c && all_digits r
  end.

(** the number a string of digits writes, after the digits read so far *)
Fixpoint digits_value (acc : Z) (d : string) : Z :=
  match d with
  | "" => acc
  | String c r => digits_value (10 * acc + digit_val c)%Z r
  end.

(** the distinct elements of a list in the order of their first
    occurrence *)
Fixpoint first_seen (l : list string) : list string :=
  match l with
  | [] => []
  | x :: r => x :: filter (fun y => negb (String.eqb y x)) (first_seen r)
  end.

(** one more name seen: it joins the end unless it is there already *)
Definition see (acc : list string) (n : string) : list string :=
  if in_tuple n acc then acc else (acc ++ [n])%list.

(** the loop of [make_group] from given groups *)
Definition make_group_from (groups : dict (list string))
  (jira_tasks : dict BranchType) : dict (list string) :=
  fold_left
    (fun jira_groups kb =>
       dict_append (group_name (snd kb)) (fst kb) jira_groups)
    jira_tasks groups.

(** the header line of a group in the document *)
Definition header_line (name : string) : string := "- **" ++ name ++ ":**".

(** the group header lines of a document, in order *)
Definition group_headers (out : list string) : list string :=
  filter (startswith "- **") out.

(** [x] sorts no later than [y]: both have a numeric sort key, and the
    key of [x] is not the larger one *)
Definition key_le (x y : string) : Prop :=
  exists n m, sort_key x = Some n /\ sort_key y = Some m /\ (n <= m)%Z.

(** the order of the keyed elements *)
Definition fst_le (a b : Z * string) : Prop := (fst a <= fst b)%Z.

(** the shape of a base key: the prefix, a dash, one or more digits *)
Definition base_key_shape (P k : string) : Prop :=
  exists d, k = P ++ "-" ++ d /\ d <> "" /\ all_digits d = true.

(** a text short enough for [int] whatever it holds *)
Definition short (k : string) : Prop :=
  (Z.of_nat (String.length k) <= MAX_STR_DIGITS)%Z.

(** the line passes the first two parsing steps with this branch name *)
Definition names_branch (line full_branch : string) : Prop :=
  let l := strip line in
  (String.eqb l "" || contains "refs/heads/develop" l
   || contains "remote-tracking" l) = false
  /\ search_merge_branch l = Some full_branch.

End BuilderSpec.

(** ** Reading [merges.txt] *)

Module BuilderInput.
Import PyStr.

(** a line boundary of [str.splitlines] below 256: line feed, vertical
    tab, form feed, carriage return, the three information separators
    and next-line *)
Definition is_linebreak (c : ascii) : bool :=
  let n := nat_of_ascii c in
  (((10 <=? n) && (n <=? 13)) || ((28 <=? n) && (n <=? 30))
   || (n =? 133))%nat.

(** [s.splitlines()]: the lines without their boundaries; a carriage
    return and the line feed right after it are one boundary
    ([skip_lf] tells that the previous character was a carriage
    return); no empty last line after a final boundary. *)
Fixpoint splitlines_from (skip_lf : bool) (s : string) : list string :=
  match s with
  | "" => []
  | String c r =>
      if skip_lf && Ascii.eqb c LF then splitlines_from false r
      else if is_linebreak c then "" :: splitlines_from (Ascii.eqb c CR) r
      else match splitlines_from false r with
           | h :: t => String c h :: t
           | [] => [String c ""]
           end
  end.

Definition splitlines (s : string) : list string := splitlines_from false s.

(** [merge_lines]: the file is opened in text mode, which translates
    the line endings, and its whole text is split into lines *)
Definition read_merge_lines (content : string) : list string :=
  splitlines (Extractor.universal_newlines content).

End BuilderInput.

(** ** The line source of the Extractor *)

Module ExtractorSource.
Import PyStr BuilderInput.

(** [str(n)] for an integer *)
Definition str_of_int (n : Z) : string :=
  NilZero.string_of_int (Z.to_int n).

(** the command [get_git_merge_commits] runs: the revision range is
    added when [since_ref] is neither [None] nor empty *)
Definition git_log_command (since_ref : option string) (max_count : Z)
  : list string :=
  List.app
    ["git"; "log"; "--merges"; "--oneline";
     "--max-count=" ++ str_of_int max_count]
    match since_ref with
    | None | Some "" => []
    | Some r => [r ++ "..HEAD"]
    end.

(** [get_git_merge_commits]: [git] stands for [subprocess.run] in text
    mode with [check=True]: the standard output of the command, with its
    line endings translated, or [None] when the command fails or is not
    found (the script then prints a message and exits with status 1). *)
Definition get_git_merge_commits (git : list string -> option string)
  (since_ref : option string) (max_count : Z) : option (list string) :=
  match git (git_log_command since_ref max_count) with
  | Some stdout => Some (splitlines (Extractor.universal_newlines stdout))
  | None => None
  end.

(** The lines [main] filters: the lines of the input file when
    [--from-file] is given and not empty ([read] gives the content of a
    file, or [None] when it cannot be opened), else the lines of git. *)
Definition line_source (a : Extractor.args)
  (read : string -> option string) (git : list string -> option string)
  : option (list string) :=
  match Extractor.from_file a with
  | None | Some "" =>
      get_git_merge_commits git (Extractor.since a)
        (Z.of_nat (Extractor.max a))
  | Some path => option_map Extractor.readlines (read path)
  end.

End ExtractorSource.

(** ** Notions the further properties are worded with *)

Module MoreSpec.
Import PyStr Builder BuilderInput.

(** no line boundary in [s] *)
Fixpoint no_break (s : string) : bool :=
  match s with
  | "" => true
  | String c r => negb (is_linebreak c) && no_break r
  end.

(** the last of the returned issues that has the key [k] *)
Fixpoint last_with_key (k : string) (issues : list Issue) : option Issue :=
  match issues with
  | [] => None
  | i :: r =>
      match last_with_key k r with
      | Some j => Some j
      | None => if String.eqb (key i) k then Some i else None
      end
  end.

(** [x] has the numeric sort key [n] *)
Definition has_key (n : Z) (x : string) : bool :=
  match sort_key x with
  | Some m => Z.eqb m n
  | None => false
  end.

(** what the run prints before it asks the tracker *)
Definition asking (n : nat) : string :=
  "Запрашиваю " ++ str_of_nat n ++ " задач из Jira...".

(** the query the run sends for these base keys *)
Definition jql_of (base_keys : list string) : string :=
  "issueKey IN (" ++ join "," base_keys ++ ")".

(** the key [x] is listed in the group named [n] *)
Definition in_group (groups : dict (list string)) (n x : string) : Prop :=
  exists keys, In (n, keys) groups /\ In x keys.

(** all the keys the groups list, group after group *)
Definition grouped_keys (groups : dict (list string)) : list string :=
  concat (map snd groups).

(** what the lines resolve to, in order; skipped lines leave nothing *)
Definition resolutions (P : string) (lines : list string)
  : list (string * BranchType) :=
  flat_map
    (fun l =>
       match parse_line P l with
       | Resolved k b => [(k, b)]
       | Skipped _ => []
       end)
    lines.

(** every line boundary of the text is a line feed or a carriage return *)
Fixpoint plain_breaks (s : string) : bool :=
  match s with
  | "" => true
  | String c r =>
      (negb (is_linebreak c) || Ascii.eqb c LF || Ascii.eqb c CR)
      && plain_breaks r
  end.

(** every line boundary of the text is a line feed *)
Fixpoint lf_only (s : string) : bool :=
  match s with
  | "" => true
  | String c r => (negb (is_linebreak c) || Ascii.eqb c LF) && lf_only r
  end.

(** the bullet of the key [k], given the issues the tracker returned *)
Definition bullet_text (issues : list Issue) (k : string) : string :=
  match last_with_key k issues with
  | Some j =>
      "  + " ++ strip (summary j) ++ " (задача " ++ k ++ ")["
      ++ status j ++ "]"
  | None => "  + [Название не найдено] (задача " ++ k ++ ")[[Todo]]"
  end.

End MoreSpec.

(** ** Facts about the string operations *)

Module PyStrFacts.
Import PyStr.

Lemma app_assoc (a b c : string) : (a ++ b) ++ c = a ++ (b ++ c).
Proof. induction a as [|x a IH]; simpl; [reflexivity | now rewrite IH]. Qed.

Lemma app_empty_r (a : string) : a ++ "" = a.
Proof. induction a as [|x a IH]; simpl; [reflexivity | now rewrite IH]. Qed.

Lemma lower_app (a b : string) : lower (a ++ b) = lower a ++ lower b.
Proof. induction a as [|x a IH]; simpl; [reflexivity | now rewrite IH]. Qed.

Lemma lower_length (a : string) : String.length (lower a) = String.length a.
Proof. induction a as [|x a IH]; simpl; [reflexivity | now rewrite IH]. Qed.

(** *** Prefixes *)

Lemma strip_prefix_app (p t : string) : strip_prefix p (p ++ t) = Some t.
Proof.
  induction p as [|x p IH]; simpl; [reflexivity|].
  now rewrite Ascii.eqb_refl.
Qed.

Lemma strip_prefix_inv (p s t : string) :
  strip_prefix p s = Some t -> s = p ++ t.
Proof.
  revert s; induction p as [|x p IH]; intros s H; simpl in H.
  - now inversion H.
  - destruct s as [|y s]; [discriminate|].
    destruct (Ascii.eqb x y) eqn:E; [|discriminate].
    apply Ascii.eqb_eq in E; subst y. simpl. f_equal. now apply IH.
Qed.

Lemma strip_prefix_ci_app (p m t : string) :
  lower m = lower p -> strip_prefix_ci p (m ++ t) = Some t.
Proof.
  revert m; induction p as [|x p IH]; intros m H.
  - destruct m; [reflexivity | discriminate].
  - destruct m as [|y m]; [discriminate|].
    simpl in H. injection H as Hc Hr. simpl.
    rewrite Hc, Ascii.eqb_refl. now apply IH.
Qed.

Lemma strip_prefix_ci_inv (p s t : string) :
  strip_prefix_ci p s = Some t ->
  exists m, s = m ++ t /\ lower m = lower p.
Proof.
  revert s; induction p as [|x p IH]; intros s H; simpl in H.
  - exists "". now inversion H.
  - destruct s as [|y s]; [discriminate|].
    destruct (Ascii.eqb (lower_char x) (lower_char y)) eqn:E; [|discriminate].
    apply Ascii.eqb_eq in E.
    destruct (IH _ H) as (m & -> & Hm).
    exists (String y m). simpl. now rewrite Hm, E.
Qed.

(** *** Substrings *)

Lemma contains_intro (p a b : string) : contains p (a ++ p ++ b) = true.
Proof.
  induction a as [|x a IH]; simpl.
  - change ("" ++ p ++ b) with (p ++ b).
    assert (H : startswith p (p ++ b) = true)
      by (unfold startswith; now rewrite strip_prefix_app).
    destruct (p ++ b); simpl; now rewrite H.
  - rewrite IH. apply orb_true_r.
Qed.

Lemma contains_inv (p s : string) :
  contains p s = true -> exists a b, s = a ++ p ++ b.
Proof.
  induction s as [|x s IH]; simpl; intros H.
  - rewrite orb_false_r in H. unfold startswith in H.
    destruct (strip_prefix p "") as [t|] eqn:E; [|discriminate].
    exists "", t. exact (strip_prefix_inv _ _ _ E).
  - apply orb_true_iff in H as [H|H].
    + unfold startswith in H.
      destruct (strip_prefix p (String x s)) as [t|] eqn:E; [|discriminate].
      exists "", t. exact (strip_prefix_inv _ _ _ E).
    + destruct (IH H) as (a & b & ->). now exists (String x a), b.
Qed.

Lemma contains_ci_intro (p a m b : string) :
  lower m = lower p -> contains_ci p (a ++ m ++ b) = true.
Proof.
  intros H. induction a as [|x a IH].
  - change ("" ++ m ++ b) with (m ++ b).
    destruct (m ++ b) eqn:E; simpl; rewrite <- E;
      now rewrite (strip_prefix_ci_app p m b H).
  - simpl. rewrite IH. apply orb_true_r.
Qed.

Lemma contains_ci_inv (p s : string) :
  contains_ci p s = true ->
  exists a m b, s = a ++ m ++ b /\ lower m = lower p.
Proof.
  induction s as [|x s IH]; simpl; intros H.
  - rewrite orb_false_r in H.
    destruct (strip_prefix_ci p "") as [t|] eqn:E; [|discriminate].
    destruct (strip_prefix_ci_inv _ _ _ E) as (m & Hs & Hm).
    now exists "", m, t.
  - apply orb_true_iff in H as [H|H].
    + destruct (strip_prefix_ci p (String x s)) as [t|] eqn:E; [|discriminate].
      destruct (strip_prefix_ci_inv _ _ _ E) as (m & Hs & Hm).
      now exists "", m, t.
    + destruct (IH H) as (a & m & b & -> & Hm).
      now exists (String x a), m, b.
Qed.

Lemma contains_ci_spec (p s : string) :
  contains_ci p s = true <->
  exists a m b, s = a ++ m ++ b /\ lower m = lower p.
Proof.
  split; [apply contains_ci_inv|].
  intros (a & m & b & -> & H). now apply contains_ci_intro.
Qed.

(** *** Characters without another letter case *)

Ltac all_chars c :=
  destruct c as [[] [] [] [] [] [] [] []]; vm_compute; intros H;
  first [reflexivity | discriminate H].

Lemma caseless_quote : caseless QUOTE.
Proof. split; [reflexivity | intros c; all_chars c]. Qed.

Lemma caseless_slash : caseless "/".
Proof. split; [reflexivity | intros c; all_chars c]. Qed.

Lemma caseless_dash : caseless "-".
Proof. split; [reflexivity | intros c; all_chars c]. Qed.

Lemma caseless_space : caseless " ".
Proof. split; [reflexivity | intros c; all_chars c]. Qed.

Lemma caseless_digit3 : caseless "3".
Proof. split; [reflexivity | intros c; all_chars c]. Qed.

Lemma caseless_eqb (d c : ascii) :
  caseless d ->
  Ascii.eqb (lower_char d) (lower_char c) = Ascii.eqb d c.
Proof.
  intros [Hd Hc]. rewrite Hd.
  destruct (Ascii.eqb_spec d c) as [->|n].
  - rewrite Hd. apply Ascii.eqb_refl.
  - apply Ascii.eqb_neq. intros E. apply n. symmetry. now apply Hc.
Qed.

Lemma has_char_app (c : ascii) (a b : string) :
  has_char c (a ++ b) = has_char c a || has_char c b.
Proof.
  induction a as [|x a IH]; simpl; [reflexivity|].
  now rewrite IH, orb_assoc.
Qed.

Lemma has_char_lower (d : ascii) (s : string) :
  caseless d -> has_char d (lower s) = has_char d s.
Proof.
  intros Hd. induction s as [|x s IH]; simpl; [reflexivity|].
  rewrite IH. f_equal.
  rewrite (Ascii.eqb_sym (lower_char x)), (Ascii.eqb_sym x).
  rewrite <- (caseless_eqb d x Hd). destruct Hd as [Hd _]. now rewrite Hd.
Qed.

(** the first occurrence of a character splits the string *)
Lemma has_char_split (c : ascii) (s : string) :
  has_char c s = true ->
  exists y b, s = y ++ String c b /\ has_char c y = false.
Proof.
  induction s as [|x s IH]; simpl; [discriminate|].
  destruct (Ascii.eqb_spec x c) as [->|n]; simpl.
  - intros _. now exists "", s.
  - intros H. destruct (IH H) as (y & b & -> & Hy).
    exists (String x y), b. split; [reflexivity|].
    simpl. rewrite Hy. apply Ascii.eqb_neq in n. now rewrite n.
Qed.

(** two splittings at the first occurrence agree *)
Lemma first_split_unique (c : ascii) (a b x y : string) :
  has_char c a = false -> has_char c b = false ->
  a ++ String c x = b ++ String c y -> a = b /\ x = y.
Proof.
  revert b; induction a as [|u a IH]; intros [|v b]; simpl; intros Ha Hb E.
  - now inversion E.
  - inversion E; subst. now rewrite Ascii.eqb_refl in Hb.
  - inversion E; subst. now rewrite Ascii.eqb_refl in Ha.
  - inversion E; subst. apply orb_false_iff in Ha as [_ Ha].
    apply orb_false_iff in Hb as [_ Hb].
    destruct (IH b Ha Hb H1) as [-> ->]. now split.
Qed.

Lemma lower_split (m a b : string) :
  lower m = a ++ b ->
  exists m1 m2, m = m1 ++ m2 /\ lower m1 = a /\ lower m2 = b.
Proof.
  revert m; induction a as [|x a IH]; intros m H.
  - now exists "", m.
  - destruct m as [|y m]; [discriminate|].
    simpl in H. injection H as Hc Hr.
    destruct (IH _ Hr) as (m1 & m2 & -> & H1 & H2).
    exists (String y m1), m2. simpl. now rewrite H1, Hc.
Qed.

Lemma lower_single (m : string) (d : ascii) :
  caseless d -> lower m = String d "" -> m = String d "".
Proof.
  intros [_ Hd] H. destruct m as [|y [|z m]]; try discriminate.
  simpl in H. injection H as Hc. now rewrite (Hd _ Hc).
Qed.

Lemma app_last_inj (a b : string) (c d : ascii) :
  a ++ String c "" = b ++ String d "" -> a = b /\ c = d.
Proof.
  revert b; induction a as [|u a IH]; intros [|v b]; simpl; intros E.
  - now inversion E.
  - inversion E. now destruct b.
  - inversion E. now destruct a.
  - inversion E; subst. destruct (IH _ H1) as [-> ->]. now split.
Qed.

Lemma length_app (a b : string) :
  String.length (a ++ b) = String.length a + String.length b.
Proof. induction a as [|x a IH]; simpl; [reflexivity | now rewrite IH]. Qed.

End PyStrFacts.


(** ** The Merge Extractor: the patterns *)

Module ExtractorFacts.
Import PyStr PyStrFacts Extractor ExtractorSpec.

Lemma search_any_spec (line : string) :
  search_any line = true <-> merge_message line.
Proof. unfold search_any, merge_message. apply contains_ci_spec. Qed.

Lemma extract_lines_In (lines : list string) (prefix line : string) :
  In line (extract_lines lines prefix)
  <-> In line lines /\ pattern_search prefix line = true.
Proof. unfold extract_lines. apply filter_In. Qed.

Lemma extract_lines_app (l1 l2 : list string) (prefix : string) :
  extract_lines (l1 ++ l2) prefix
  = (extract_lines l1 prefix ++ extract_lines l2 prefix)%list.
Proof. unfold extract_lines. apply filter_app. Qed.

(** C4, as stated, fails: a line of an octopus merge contains the text
    Merge branch and the Extractor run without a prefix drops it. *)
Lemma C4_counterexample :
  let line := "1a2b3c4 Merge branches 'feature/WEBDEV-1' and 'fix/WEBDEV-2'" in
  contains "Merge branch" line = true
  /\ extract_lines [line] "" = [].
Proof. split; reflexivity. Qed.

(** C4, amended: without a prefix a line is kept exactly when it has,
    letter case ignored, the text Merge branch followed by a space;
    nothing that surrounds that text matters, and the kept lines stay in
    their order. *)
Theorem C4_extract_without_prefix :
  (forall lines line,
      In line (extract_lines lines "")
      <-> In line lines /\ merge_message line)
  /\ (forall a b, extract_lines [a ++ "Merge branch " ++ b] ""
                 = [a ++ "Merge branch " ++ b])
  /\ (forall a b, extract_lines [a ++ "merge BRANCH " ++ b] ""
                 = [a ++ "merge BRANCH " ++ b])
  /\ (forall l1 l2, extract_lines (l1 ++ l2) ""
                   = (extract_lines l1 "" ++ extract_lines l2 "")%list).
Proof.
  split; [|split; [|split]].
  - intros lines line. rewrite extract_lines_In.
    simpl. now rewrite search_any_spec.
  - intros a b. unfold extract_lines, pattern_search, search_any.
    cbn [filter]. now rewrite contains_ci_intro.
  - intros a b. unfold extract_lines, pattern_search, search_any.
    cbn [filter]. now rewrite contains_ci_intro.
  - intros l1 l2. apply extract_lines_app.
Qed.

(** *** The prefixed pattern *)

Lemma closes_spec (t : string) :
  closes t = true <-> exists y b, t = y ++ "'" ++ b /\ quote_free y.
Proof.
  unfold closes, quote_free. split.
  - intros H. exact (has_char_split _ _ H).
  - intros (y & b & -> & _). rewrite has_char_app. simpl.
    apply orb_true_r.
Qed.

(** what the text matched by slash, prefix and dash looks like *)
Lemma slash_prefix_dash (prefix m : string) :
  lower m = lower ("/" ++ prefix ++ "-") ->
  exists p, m = "/" ++ p ++ "-" /\ lower p = lower prefix.
Proof.
  rewrite !lower_app. intros H.
  destruct (lower_split _ _ _ H) as (m1 & m' & -> & H1 & H').
  destruct (lower_split _ _ _ H') as (p & m3 & -> & Hp & H3).
  apply (lower_single _ _ caseless_slash) in H1.
  apply (lower_single _ _ caseless_dash) in H3.
  subst. now exists p.
Qed.

Lemma branch_with_prefix_spec (prefix s : string) :
  branch_with_prefix prefix s = true
  <-> exists x p y b,
        s = x ++ "/" ++ p ++ "-" ++ y ++ "'" ++ b
        /\ quote_free x /\ lower p = lower prefix /\ quote_free y.
Proof.
  split.
  - induction s as [|c s IH]; cbn [branch_with_prefix]; intros H.
    + rewrite orb_false_r in H. simpl in H. discriminate.
    + apply orb_true_iff in H as [H|H].
      * destruct (strip_prefix_ci ("/" ++ prefix ++ "-") (String c s))
          as [t|] eqn:E; [|discriminate].
        destruct (strip_prefix_ci_inv _ _ _ E) as (m & Hs & Hm).
        destruct (slash_prefix_dash _ _ Hm) as (p & -> & Hp).
        apply closes_spec in H as (y & b & -> & Hy).
        exists "", p, y, b. rewrite Hs, !app_assoc. now repeat split.
      * destruct (Ascii.eqb_spec c QUOTE) as [->|n]; [discriminate|].
        destruct (IH H) as (x & p & y & b & -> & Hx & Hp & Hy).
        exists (String c x), p, y, b. repeat split; try assumption.
        unfold quote_free; simpl. apply Ascii.eqb_neq in n.
        now rewrite n, Hx.
  - intros (x & p & y & b & -> & Hx & Hp & Hy).
    induction x as [|c x IH].
    + assert (E : strip_prefix_ci ("/" ++ prefix ++ "-")
                    (("/" ++ p ++ "-") ++ y ++ "'" ++ b)
                  = Some (y ++ "'" ++ b)).
      { apply strip_prefix_ci_app. rewrite !lower_app. now rewrite Hp. }
      rewrite !app_assoc in E. cbn [append] in E |- *.
      cbn [branch_with_prefix]. cbn [append]. rewrite E.
      replace (closes (y ++ String "'" b)) with true; [reflexivity|].
      symmetry. apply closes_spec. now exists y, b.
    + unfold quote_free in Hx. simpl in Hx.
      apply orb_false_iff in Hx as [Hc Hx].
      change (branch_with_prefix prefix
                (String c (x ++ "/" ++ p ++ "-" ++ y ++ "'" ++ b)) = true).
      cbn [branch_with_prefix]. rewrite Hc, (IH Hx). apply orb_true_r.
Qed.

Lemma search_prefixed_spec (prefix line : string) :
  search_prefixed prefix line = true <-> prefixed_merge_message prefix line.
Proof.
  unfold prefixed_merge_message. split.
  - induction line as [|c s IH]; cbn [search_prefixed]; intros H.
    + discriminate.
    + apply orb_true_iff in H as [H|H].
      * destruct (strip_prefix_ci "Merge branch '" (String c s))
          as [t|] eqn:E; [|discriminate].
        destruct (strip_prefix_ci_inv _ _ _ E) as (m & Hs & Hm).
        apply branch_with_prefix_spec in H
          as (x & p & y & b & -> & Hx & Hp & Hy).
        exists "", m, x, p, y, b. now repeat split.
      * destruct (IH H) as (a & m & x & p & y & b & -> & Hm & Hx & Hp & Hy).
        exists (String c a), m, x, p, y, b. now repeat split.
  - intros (a & m & x & p & y & b & -> & Hm & Hx & Hp & Hy).
    assert (B : branch_with_prefix prefix
                  (x ++ "/" ++ p ++ "-" ++ y ++ "'" ++ b) = true).
    { apply branch_with_prefix_spec. now exists x, p, y, b. }
    induction a as [|c a IH].
    + pose proof (strip_prefix_ci_app "Merge branch '" m
                    (x ++ "/" ++ p ++ "-" ++ y ++ "'" ++ b) Hm) as E.
      change ("" ++ m ++ x ++ "/" ++ p ++ "-" ++ y ++ "'" ++ b)
        with (m ++ x ++ "/" ++ p ++ "-" ++ y ++ "'" ++ b).
      destruct (m ++ x ++ "/" ++ p ++ "-" ++ y ++ "'" ++ b) eqn:Em;
        cbn [search_prefixed]; rewrite E, B; reflexivity.
    + change (search_prefixed prefix
                (String c (a ++ m ++ x ++ "/" ++ p ++ "-" ++ y ++ "'" ++ b))
              = true).
      cbn [search_prefixed]. rewrite IH. apply orb_true_r.
Qed.

(** *** Where the prefixed pattern cannot match *)

(** A match of the leading text ends at the first quote of the string,
    thirteen characters in, right after a space. *)
Lemma merge_branch_at (s t : string) :
  strip_prefix_ci "Merge branch '" s = Some t ->
  exists m, s = m ++ "'" ++ t /\ quote_free m /\ lower m = "merge branch ".
Proof.
  intros E. destruct (strip_prefix_ci_inv _ _ _ E) as (m0 & -> & Hm).
  change (lower "Merge branch '") with ("merge branch " ++ "'") in Hm.
  destruct (lower_split _ _ _ Hm) as (m & q & -> & H1 & H2).
  apply (lower_single _ _ caseless_quote) in H2. subst q.
  exists m. rewrite app_assoc. repeat split; [|assumption].
  unfold quote_free. rewrite <- (has_char_lower _ _ caseless_quote).
  now rewrite H1.
Qed.

Lemma no_match_head (c : ascii) (s : string) :
  Ascii.eqb (lower_char "M") (lower_char c) = false ->
  strip_prefix_ci "Merge branch '" (String c s) = None.
Proof. intros H. cbn [strip_prefix_ci]. now rewrite H. Qed.

Lemma search_prefixed_head (prefix : string) (c : ascii) (s : string) :
  Ascii.eqb (lower_char "M") (lower_char c) = false ->
  search_prefixed prefix (String c s) = search_prefixed prefix s.
Proof.
  intros H. cbn [search_prefixed]. now rewrite (no_match_head c s H).
Qed.

Lemma search_prefixed_quote_free (prefix s : string) :
  quote_free s -> search_prefixed prefix s = false.
Proof.
  unfold quote_free. induction s as [|c s IH]; intros H; [reflexivity|].
  cbn [search_prefixed].
  destruct (strip_prefix_ci "Merge branch '" (String c s)) as [t|] eqn:E.
  - destruct (merge_branch_at _ _ E) as (m & Hs & _).
    rewrite Hs, has_char_app in H. simpl in H.
    now rewrite orb_true_r in H.
  - simpl in H. apply orb_false_iff in H as [_ H]. now rewrite IH.
Qed.

(** text before the merge message, when it has no quote, plays no part *)
Lemma search_prefixed_skip (prefix a rest : string) :
  quote_free a ->
  search_prefixed prefix (a ++ "Merge branch '" ++ rest)
  = search_prefixed prefix ("Merge branch '" ++ rest).
Proof.
  unfold quote_free. induction a as [|c a IH]; intros H; [reflexivity|].
  simpl in H. apply orb_false_iff in H as [Hc H].
  change (String c a ++ "Merge branch '" ++ rest)
    with (String c (a ++ "Merge branch '" ++ rest)).
  cbn [search_prefixed].
  destruct (strip_prefix_ci "Merge branch '"
              (String c (a ++ "Merge branch '" ++ rest))) as [t|] eqn:E.
  - exfalso. destruct (merge_branch_at _ _ E) as (m & Hs & Hq & Hm).
    change (String c (a ++ "Merge branch '" ++ rest))
      with (String c a ++ "Merge branch " ++ "'" ++ rest) in Hs.
    rewrite <- app_assoc in Hs.
    apply first_split_unique in Hs as [Hs _]; [|
      unfold QUOTE in *; rewrite has_char_app; cbn [has_char];
      rewrite Hc, H; reflexivity
      | exact Hq].
    apply (f_equal (fun x => String.length (lower x))) in Hs.
    rewrite Hm, lower_length, length_app in Hs. simpl in Hs. lia.
  - now rewrite IH.
Qed.

(** after the quoted name, when no quote follows, nothing matches *)
Lemma search_prefixed_tail (prefix y b : string) :
  quote_free y -> quote_free b ->
  search_prefixed prefix (y ++ "3'" ++ b) = false.
Proof.
  unfold quote_free. intros Hy Hb. induction y as [|c y IH].
  - change ("" ++ "3'" ++ b) with (String "3" (String "'" b)).
    rewrite !search_prefixed_head by reflexivity.
    now apply search_prefixed_quote_free.
  - simpl in Hy. apply orb_false_iff in Hy as [Hc Hy].
    change (String c y ++ "3'" ++ b) with (String c (y ++ "3'" ++ b)).
    cbn [search_prefixed].
    destruct (strip_prefix_ci "Merge branch '"
                (String c (y ++ "3'" ++ b))) as [t|] eqn:E.
    + exfalso. destruct (merge_branch_at _ _ E) as (m & Hs & Hq & Hm).
      change (String c (y ++ "3'" ++ b))
        with (String c y ++ "3" ++ "'" ++ b) in Hs.
      rewrite <- app_assoc in Hs.
      apply first_split_unique in Hs as [Hs _]; [|
        unfold QUOTE in *; rewrite has_char_app; cbn [has_char];
        rewrite Hc, Hy; reflexivity
        | exact Hq].
      rewrite <- Hs, lower_app in Hm.
      change "merge branch " with ("merge branch" ++ " ") in Hm.
      apply app_last_inj in Hm as [_ Hm]. discriminate Hm.
    + now rewrite IH.
Qed.

(** the prefix and its dash do not match another token and its dash *)
Lemma other_token (prefix q z : string) :
  has_char "-" prefix = false -> has_char "-" q = false ->
  lower q <> lower prefix ->
  strip_prefix_ci (prefix ++ "-") (q ++ "-" ++ z) = None.
Proof.
  revert q; induction prefix as [|u p IH]; intros [|v q] Hp Hq Hne;
    cbn [has_char] in Hp, Hq; cbn [append strip_prefix_ci].
  - now contradiction Hne.
  - apply orb_false_iff in Hq as [Hv _].
    rewrite (caseless_eqb _ _ caseless_dash), Ascii.eqb_sym. now rewrite Hv.
  - apply orb_false_iff in Hp as [Hu _].
    rewrite Ascii.eqb_sym, (caseless_eqb _ _ caseless_dash), Ascii.eqb_sym.
    now rewrite Hu.
  - apply orb_false_iff in Hp as [_ Hp]. apply orb_false_iff in Hq as [_ Hq].
    destruct (Ascii.eqb_spec (lower_char u) (lower_char v)) as [e|n];
      [|reflexivity].
    apply IH; try assumption.
    intros E. apply Hne. simpl. now rewrite e, E.
Qed.

(** without a slash before the closing quote there is no name to match *)
Lemma branch_with_prefix_no_slash (prefix y b : string) :
  has_char "/" y = false ->
  branch_with_prefix prefix (y ++ "'" ++ b) = false.
Proof.
  intros Hy. induction y as [|c y IH].
  - reflexivity.
  - simpl in Hy. apply orb_false_iff in Hy as [Hc Hy].
    change (String c y ++ "'" ++ b) with (String c (y ++ "'" ++ b)).
    cbn [branch_with_prefix]. rewrite (IH Hy).
    cbn [append strip_prefix_ci].
    rewrite (caseless_eqb _ _ caseless_slash), Ascii.eqb_sym, Hc.
    now destruct (Ascii.eqb c QUOTE).
Qed.

Lemma branch_with_prefix_head (prefix : string) (c : ascii) (s : string) :
  Ascii.eqb "/" c = false -> Ascii.eqb c QUOTE = false ->
  branch_with_prefix prefix (String c s) = branch_with_prefix prefix s.
Proof.
  intros H1 H2. cbn [branch_with_prefix append strip_prefix_ci].
  now rewrite (caseless_eqb _ _ caseless_slash), H1, H2.
Qed.

(** a line whose one merge message names another token is not matched *)
Lemma other_token_excluded (prefix q a b : string) :
  token prefix -> token q -> lower q <> lower prefix ->
  quote_free a -> quote_free b ->
  search_prefixed prefix (a ++ "Merge branch 'feature/" ++ q ++ "-123'" ++ b)
  = false.
Proof.
  intros (_ & _ & Hpd) (Hqq & Hqs & Hqd) Hne Ha Hb.
  change (a ++ "Merge branch 'feature/" ++ q ++ "-123'" ++ b)
    with (a ++ "Merge branch '" ++ "feature/" ++ q ++ "-123'" ++ b).
  rewrite (search_prefixed_skip _ _ _ Ha).
  set (rest := "feature/" ++ q ++ "-123'" ++ b).
  change ("Merge branch '" ++ rest) with (String "M" ("erge branch '" ++ rest)).
  cbn [search_prefixed].
  change (String "M" ("erge branch '" ++ rest)) with ("Merge branch '" ++ rest).
  rewrite (strip_prefix_ci_app "Merge branch '" "Merge branch '" _ eq_refl).
  apply orb_false_iff; split.
  - subst rest. cbn [append].
    rewrite !branch_with_prefix_head by reflexivity.
    cbn [branch_with_prefix append strip_prefix_ci].
    replace (Ascii.eqb (lower_char "/") (lower_char "/")) with true
      by reflexivity.
    change (String "-" (String "1" (String "2" (String "3" (String "'" b)))))
      with ("-" ++ "123'" ++ b).
    rewrite (other_token prefix q _ Hpd Hqd Hne).
    change (Ascii.eqb "/" QUOTE) with false. cbn [orb].
    change (q ++ "-" ++ "123'" ++ b) with (q ++ "-123" ++ "'" ++ b).
    rewrite <- (app_assoc q "-123"). apply branch_with_prefix_no_slash.
    rewrite has_char_app, Hqs. reflexivity.
  - cbn [append].
    rewrite !search_prefixed_head by reflexivity.
    subst rest.
    change ("feature/" ++ q ++ "-123'" ++ b)
      with ("feature/" ++ q ++ "-12" ++ "3'" ++ b).
    rewrite <- (app_assoc q "-12"), <- (app_assoc "feature/").
    apply search_prefixed_tail; [|exact Hb].
    unfold quote_free. rewrite !has_char_app, Hqq. reflexivity.
Qed.

(** *** The claims about the patterns *)

Lemma pattern_search_prefixed (prefix line : string) :
  prefix <> "" -> pattern_search prefix line = search_prefixed prefix line.
Proof. destruct prefix; [congruence | reflexivity]. Qed.

(** C6, as stated, fails: the prefix webdev is another string than
    WEBDEV, and a line that merges feature/webdev-123 is kept under the
    prefix WEBDEV. *)
Lemma C6_counterexample :
  let line := "1a2b3c4 Merge branch 'feature/webdev-123' into develop" in
  "webdev" <> "WEBDEV"
  /\ contains "Merge branch 'feature/webdev-123'" line = true
  /\ extract_lines [line] "WEBDEV" = [line].
Proof. repeat split. discriminate. Qed.

(** C6, amended: with a non-empty prefix P (free of pattern syntax) the
    output is the ordered subsequence of the lines that have, letter
    case ignored, Merge branch, a space and a quoted name made of text
    without quotes, a slash, P, a dash and text without quotes.  A line
    with the message Merge branch 'feature/P-123' is kept.  A line whose
    only quoted text is the message Merge branch 'feature/Q-123' is
    dropped when the tokens P and Q differ even with letter case
    ignored. *)
Theorem C6_extract_with_prefix (P : string) :
  P <> "" -> regex_literal P = true ->
  (forall lines line,
      In line (extract_lines lines P)
      <-> In line lines /\ prefixed_merge_message P line)
  /\ (forall l1 l2,
        extract_lines (l1 ++ l2) P
        = (extract_lines l1 P ++ extract_lines l2 P)%list)
  /\ (forall line,
        extract_lines [line] P = [line] \/ extract_lines [line] P = [])
  /\ (forall a b,
        extract_lines [a ++ "Merge branch 'feature/" ++ P ++ "-123'" ++ b] P
        = [a ++ "Merge branch 'feature/" ++ P ++ "-123'" ++ b])
  /\ (forall Q a b,
        token P -> token Q -> lower Q <> lower P ->
        quote_free a -> quote_free b ->
        extract_lines [a ++ "Merge branch 'feature/" ++ Q ++ "-123'" ++ b] P
        = []).
Proof.
  intros HP _. split; [|split; [|split; [|split]]].
  - intros lines line. rewrite extract_lines_In.
    rewrite (pattern_search_prefixed _ _ HP).
    now rewrite search_prefixed_spec.
  - intros l1 l2. apply extract_lines_app.
  - intros line. unfold extract_lines. cbn [filter].
    destruct (pattern_search P line); [now left | now right].
  - intros a b. unfold extract_lines. cbn [filter].
    rewrite (pattern_search_prefixed _ _ HP).
    replace (search_prefixed P _) with true; [reflexivity|].
    symmetry. apply search_prefixed_spec.
    exists a, "Merge branch '", "feature", P, "123", b.
    now repeat split.
  - intros Q a b HtP HtQ Hne Ha Hb. unfold extract_lines. cbn [filter].
    rewrite (pattern_search_prefixed _ _ HP).
    now rewrite other_token_excluded.
Qed.

(** the theorem at the prefix WEBDEV and two lines of a log *)
Lemma C6_extract_with_prefix_witness :
  extract_lines
    ["1a2b3c4 Merge branch 'feature/WEBDEV-123' into develop"] "WEBDEV"
  = ["1a2b3c4 Merge branch 'feature/WEBDEV-123' into develop"]
  /\ extract_lines
       ["5d6e7f8 Merge branch 'feature/MOBILE-123' into develop"] "WEBDEV"
     = [].
Proof.
  destruct (C6_extract_with_prefix "WEBDEV" ltac:(discriminate) eq_refl)
    as (_ & _ & _ & Hin & Hout).
  split.
  - exact (Hin "1a2b3c4 " " into develop").
  - apply (Hout "MOBILE" "5d6e7f8 " " into develop");
      first [discriminate | repeat split; reflexivity | reflexivity].
Defined.

End ExtractorFacts.

(** ** The Merge Extractor: output file and round trip *)

Module ExtractorRun.
Import PyStr PyStrFacts Extractor ExtractorSpec ExtractorFacts.

Lemma resolved_output_nonempty (a : args) : resolved_output a <> "".
Proof.
  unfold resolved_output. destruct (output a) as [[|c o]|]; discriminate.
Qed.

(** C10: the output path a run resolves is never empty; a run whose line
    source delivers lines writes them, newline-joined, to that path, and
    no run ends in the branch that only reports the count. *)
Theorem C10_output_always_written :
  forall (a : args) (source : option (list string)),
    resolved_output a <> ""
    /\ (output a = None -> resolved_output a = "merges.txt")
    /\ (output a = Some "" -> resolved_output a = "merges.txt")
    /\ (forall lines,
          main a (Some lines)
          = Saved (resolved_output a)
              (join (String LF "") (extract_lines lines (prefix a)))
              (List.length (extract_lines lines (prefix a))))
    /\ (forall n, main a source <> CountOnly n).
Proof.
  intros a source. pose proof (resolved_output_nonempty a) as Hne.
  split; [exact Hne|]. split; [|split; [|split]].
  - unfold resolved_output. now intros ->.
  - unfold resolved_output. now intros ->.
  - intros lines. unfold main.
    destruct (resolved_output a); [congruence | reflexivity].
  - intros n. unfold main. destruct source; [|discriminate].
    destruct (resolved_output a); [congruence | discriminate].
Qed.

(** *** Reading back what was written *)

Lemma universal_newlines_id (s : string) :
  has_char CR s = false -> universal_newlines s = s.
Proof.
  induction s as [|c s IH]; [reflexivity|].
  cbn [has_char universal_newlines]. intros H.
  apply orb_false_iff in H as [Hc H]. rewrite Hc. now rewrite IH.
Qed.

Lemma split_keepends_line (f rest : string) :
  has_char LF f = false ->
  split_keepends (f ++ String LF rest)
  = (f ++ String LF "") :: split_keepends rest.
Proof.
  induction f as [|c f IH]; cbn [has_char append split_keepends]; intros H.
  - now rewrite Ascii.eqb_refl.
  - apply orb_false_iff in H as [Hc H]. rewrite Hc, (IH H). reflexivity.
Qed.

Lemma split_keepends_last (f : string) :
  has_char LF f = false -> f <> "" -> split_keepends f = [f].
Proof.
  induction f as [|c f IH]; [congruence|].
  cbn [has_char split_keepends]. intros H _.
  apply orb_false_iff in H as [Hc H]. rewrite Hc.
  destruct f as [|d f]; [reflexivity|].
  rewrite (IH H); [reflexivity | discriminate].
Qed.

Lemma split_keepends_join (l : list string) :
  Forall (fun f => has_char LF f = false /\ f <> "") l ->
  split_keepends (join (String LF "") l) = with_line_feeds l.
Proof.
  induction 1 as [|f l [Hf Hne] Hl IH]; [reflexivity|].
  destruct l as [|g l].
  - now apply split_keepends_last.
  - change (join (String LF "") (f :: g :: l))
      with (f ++ String LF (join (String LF "") (g :: l))).
    rewrite (split_keepends_line _ _ Hf), IH. reflexivity.
Qed.

Lemma has_char_join (c : ascii) (l : list string) :
  Ascii.eqb LF c = false ->
  Forall (fun f => has_char c f = false) l ->
  has_char c (join (String LF "") l) = false.
Proof.
  intros Hc. induction 1 as [|f l Hf Hl IH]; [reflexivity|].
  destruct l as [|g l]; [exact Hf|].
  change (join (String LF "") (f :: g :: l))
    with (f ++ String LF (join (String LF "") (g :: l))).
  rewrite has_char_app, Hf. cbn [has_char orb]. now rewrite Hc, IH.
Qed.

(** every line the Extractor keeps has a merge message *)
Lemma kept_has_message (prefix line : string) :
  pattern_search prefix line = true -> search_any line = true.
Proof.
  destruct prefix as [|c p]; [trivial|].
  change (pattern_search (String c p) line)
    with (search_prefixed (String c p) line).
  rewrite search_prefixed_spec, search_any_spec.
  intros (a & m & x & q & y & b & -> & Hm & _).
  change (lower "Merge branch '") with ("merge branch " ++ "'") in Hm.
  destruct (lower_split _ _ _ Hm) as (m1 & m2 & -> & H1 & _).
  exists a, m1, (m2 ++ x ++ "/" ++ q ++ "-" ++ y ++ "'" ++ b).
  split; [now rewrite app_assoc | exact H1].
Qed.

Lemma search_any_nonempty (line : string) :
  search_any line = true -> line <> "".
Proof. intros H ->. discriminate H. Qed.

Lemma search_any_app (line t : string) :
  search_any line = true -> search_any (line ++ t) = true.
Proof.
  rewrite !search_any_spec. intros (a & m & b & -> & Hm).
  exists a, m, (b ++ t). now rewrite !app_assoc.
Qed.

Lemma extract_with_line_feeds (l : list string) :
  Forall (fun f => search_any f = true) l ->
  extract_lines (with_line_feeds l) "" = with_line_feeds l.
Proof.
  unfold extract_lines.
  induction 1 as [|f l Hf Hl IH]; [reflexivity|].
  destruct l as [|g l].
  - cbn [with_line_feeds filter pattern_search]. now rewrite Hf.
  - change (with_line_feeds (f :: g :: l))
      with ((f ++ String LF "") :: with_line_feeds (g :: l)).
    cbn [filter pattern_search].
    now rewrite (search_any_app _ _ Hf), IH.
Qed.

Lemma chomp_line_feed (f : string) :
  has_char LF f = false -> chomp (f ++ String LF "") = f.
Proof.
  induction f as [|c f IH]; cbn [has_char append]; intros H.
  - cbn [chomp]. now rewrite Ascii.eqb_refl.
  - apply orb_false_iff in H as [_ H]. cbn [chomp]. rewrite (IH H).
    now destruct f.
Qed.

Lemma chomp_id (f : string) : has_char LF f = false -> chomp f = f.
Proof.
  induction f as [|c f IH]; [reflexivity|].
  cbn [has_char chomp]. intros H. apply orb_false_iff in H as [Hc H].
  rewrite (IH H). destruct f; [now rewrite Hc | reflexivity].
Qed.

Lemma chomp_with_line_feeds (l : list string) :
  Forall (fun f => has_char LF f = false) l ->
  map chomp (with_line_feeds l) = l.
Proof.
  induction 1 as [|f l Hf Hl IH]; [reflexivity|].
  destruct l as [|g l].
  - cbn. now rewrite chomp_id.
  - change (with_line_feeds (f :: g :: l))
      with ((f ++ String LF "") :: with_line_feeds (g :: l)).
    cbn [map]. now rewrite chomp_line_feed, IH.
Qed.

(** C5: the code fails the claim.  A first run keeps two lines of the
    git log and writes them joined by a line feed; the second run reads
    that file with [--from-file] and no prefix filter, and [readlines]
    leaves on the first line the line feed that the git path drops with
    [splitlines]: the lines it keeps are not the lines written. *)
Theorem C5_reread_keeps_line_feed :
  let lines := ["1a2b3c4 Merge branch 'feature/WEBDEV-1' into develop";
                "5d6e7f8 Merge branch 'fix/WEBDEV-2' into develop"] in
  let kept := extract_lines lines "WEBDEV" in
  kept = lines
  /\ reread kept
     = ["1a2b3c4 Merge branch 'feature/WEBDEV-1' into develop"
          ++ String LF "";
        "5d6e7f8 Merge branch 'fix/WEBDEV-2' into develop"]
  /\ ~ (forall l, In l (reread kept) <-> In l kept).
Proof.
  cbv zeta.
  assert (K : extract_lines
                ["1a2b3c4 Merge branch 'feature/WEBDEV-1' into develop";
                 "5d6e7f8 Merge branch 'fix/WEBDEV-2' into develop"] "WEBDEV"
              = ["1a2b3c4 Merge branch 'feature/WEBDEV-1' into develop";
                 "5d6e7f8 Merge branch 'fix/WEBDEV-2' into develop"])
    by (vm_compute; reflexivity).
  rewrite K.
  assert (R : reread
                ["1a2b3c4 Merge branch 'feature/WEBDEV-1' into develop";
                 "5d6e7f8 Merge branch 'fix/WEBDEV-2' into develop"]
              = ["1a2b3c4 Merge branch 'feature/WEBDEV-1' into develop"
                   ++ String LF "";
                 "5d6e7f8 Merge branch 'fix/WEBDEV-2' into develop"])
    by (vm_compute; reflexivity).
  rewrite R. split; [reflexivity|]. split; [reflexivity|].
  intros H.
  destruct (proj1 (H _) (or_introl eq_refl)) as [E|[E|[]]];
    apply (f_equal String.length) in E; vm_compute in E; discriminate E.
Qed.

(** What the second run gets back when the input lines contain no
    line break: the kept lines in their order, each but the last with a
    line feed at its end; without that line feed they are the kept
    lines. *)
Lemma reread_with_line_feeds (lines : list string) (prefix : string) :
  Forall one_line lines ->
  reread (extract_lines lines prefix)
  = with_line_feeds (extract_lines lines prefix)
  /\ map chomp (reread (extract_lines lines prefix))
     = extract_lines lines prefix.
Proof.
  intros Hl.
  set (kept := extract_lines lines prefix).
  assert (Hk : Forall (fun f => one_line f /\ search_any f = true) kept).
  { apply Forall_forall. intros f Hf.
    apply extract_lines_In in Hf as [Hin Hs]. split.
    - exact (proj1 (Forall_forall _ _) Hl f Hin).
    - exact (kept_has_message _ _ Hs). }
  assert (E : reread kept = with_line_feeds kept).
  { unfold reread, readlines.
    rewrite universal_newlines_id.
    - rewrite split_keepends_join.
      + apply extract_with_line_feeds.
        eapply Forall_impl; [|exact Hk]. now intros f [_ H].
      + eapply Forall_impl; [|exact Hk]. intros f [[H1 _] H2].
        split; [exact H1 | now apply search_any_nonempty].
    - apply has_char_join; [reflexivity|].
      eapply Forall_impl; [|exact Hk]. now intros f [[_ H] _]. }
  split; [exact E|].
  rewrite E. apply chomp_with_line_feeds.
  eapply Forall_impl; [|exact Hk]. now intros f [[H _] _].
Qed.

End ExtractorRun.


(** ** The Release Note Builder: parsing *)

Module BuilderParse.
Import PyStr PyStrFacts Builder BuilderSpec.

Lemma parse_line_branch (P line full : string) :
  names_branch line full -> parse_line P line = parse_branch P full.
Proof.
  unfold names_branch, parse_line. cbv zeta. intros [H1 H2].
  now rewrite H1, H2.
Qed.

Lemma contains_char (c : ascii) (s : string) :
  contains (String c "") s = has_char c s.
Proof.
  induction s as [|d s IH]; [reflexivity|].
  cbn [contains has_char]. rewrite IH. f_equal.
  unfold startswith. cbn [strip_prefix].
  rewrite Ascii.eqb_sym. now destruct (Ascii.eqb d c).
Qed.

(** [split1] cuts at the first separator *)
Lemma split1_first (c : ascii) (a b : string) :
  has_char c a = false -> split1 c (a ++ String c b) = [a; b].
Proof.
  induction a as [|d a IH]; cbn [has_char append split1]; intros H.
  - now rewrite Ascii.eqb_refl.
  - apply orb_false_iff in H as [Hd H]. now rewrite Hd, (IH H).
Qed.

Lemma parse_task_not_step3 (P tp tk : string) :
  parse_task P tp tk <> Skipped 3.
Proof.
  unfold parse_task.
  destruct (negb (startswith (P ++ "-") tk)); [discriminate|].
  destruct (contains P (lower tk)); [discriminate|].
  destruct (base_key_match P tk); discriminate.
Qed.

Lemma parse_branch_split (P tp tk : string) :
  has_char "/" tp = false ->
  parse_branch P (tp ++ "/" ++ tk) = parse_task P tp tk.
Proof.
  intros H. unfold parse_branch.
  rewrite contains_char, has_char_app. cbn [append has_char].
  rewrite Ascii.eqb_refl, orb_true_r. cbn [negb].
  now rewrite (split1_first _ _ _ H).
Qed.

Lemma parse_branch_no_slash (P full : string) :
  has_char "/" full = false -> parse_branch P full = Skipped 3.
Proof.
  intros H. unfold parse_branch. now rewrite contains_char, H.
Qed.

(** C3, as stated, fails: a branch name with two slashes is not
    skipped; its issue key is recorded. *)
Lemma C3_counterexample :
  let line := "1a2b3c4 Merge branch 'feature/WEBDEV-42/hotfix' into develop" in
  names_branch line "feature/WEBDEV-42/hotfix"
  /\ occurrences "/" "feature/WEBDEV-42/hotfix" = 2
  /\ parse_line "WEBDEV" line = Resolved "WEBDEV-42" FEATURE
  /\ parse_lines "WEBDEV" [line] = [("WEBDEV-42", FEATURE)].
Proof. cbv zeta. unfold names_branch. repeat split; vm_compute; reflexivity. Qed.

(** C3, amended: a merge line is skipped at step 3 exactly when its
    quoted branch name has no slash.  A name with one slash or more is
    cut at its first slash: the text before it is the type-prefix, all
    the text after it, further slashes included, is the task key, and
    both go on to the later steps. *)
Theorem C3_branch_split (P line full : string) :
  names_branch line full ->
  (parse_line P line = Skipped 3 <-> has_char "/" full = false)
  /\ (has_char "/" full = true ->
      exists tp tk,
        full = tp ++ "/" ++ tk /\ has_char "/" tp = false
        /\ parse_line P line = parse_task P tp tk).
Proof.
  intros Hn. rewrite (parse_line_branch P _ _ Hn).
  destruct (has_char "/" full) eqn:E.
  - destruct (has_char_split _ _ E) as (tp & tk & -> & Htp).
    change (tp ++ String "/" tk) with (tp ++ "/" ++ tk).
    rewrite (parse_branch_split _ _ _ Htp). split.
    + split; [|discriminate].
      intros H. now apply parse_task_not_step3 in H.
    + intros _. now exists tp, tk.
  - split; [|discriminate].
    split; [reflexivity|]. intros _. now apply parse_branch_no_slash.
Qed.

(** the theorem at a line whose branch name has two slashes *)
Lemma C3_branch_split_witness :
  exists tp tk,
    "feature/WEBDEV-42/hotfix" = tp ++ "/" ++ tk /\ has_char "/" tp = false
    /\ parse_line "WEBDEV"
         "1a2b3c4 Merge branch 'feature/WEBDEV-42/hotfix' into develop"
       = parse_task "WEBDEV" tp tk.
Proof.
  refine (proj2 (C3_branch_split "WEBDEV"
                   "1a2b3c4 Merge branch 'feature/WEBDEV-42/hotfix' into develop"
                   "feature/WEBDEV-42/hotfix" _) eq_refl).
  split; vm_compute; reflexivity.
Defined.

(** *** The typo guard (step 5) *)

Lemma lower_char_idem (c : ascii) : lower_char (lower_char c) = lower_char c.
Proof. destruct c as [[] [] [] [] [] [] [] []]; reflexivity. Qed.

Lemma lower_idem (s : string) : lower (lower s) = lower s.
Proof.
  induction s as [|c s IH]; [reflexivity|].
  cbn [lower]. now rewrite lower_char_idem, IH.
Qed.

(** a piece of lower-cased text is in lower case *)
Lemma lower_piece (s a p b : string) :
  lower s = a ++ p ++ b -> lower p = p.
Proof.
  intros H. destruct (lower_split _ _ _ H) as (_ & s2 & _ & _ & H2).
  destruct (lower_split _ _ _ H2) as (p' & _ & _ & Hp & _).
  rewrite <- Hp. apply lower_idem.
Qed.

(** On a task key that starts with the prefix and a dash, the guard
    looks at the prefix alone. *)
Lemma guard_fires (P tk : string) :
  startswith (P ++ "-") tk = true ->
  (contains P (lower tk) = true <-> lower P = P).
Proof.
  unfold startswith. intros H.
  destruct (strip_prefix (P ++ "-") tk) as [r|] eqn:E; [|discriminate].
  apply strip_prefix_inv in E. subst tk. split.
  - intros C. destruct (contains_inv _ _ C) as (a & b & Hab).
    exact (lower_piece _ _ _ _ Hab).
  - intros L. rewrite !lower_app, L.
    rewrite app_assoc. apply (contains_intro P "").
Qed.

(** C1: the code fails the claim.  Under the prefix webdev the task
    key webdev-42 has the prefix once in its lower-case form, no typo,
    and the guard skips the line: nothing is recorded.  Under the prefix
    WEBDEV the guard looks for the upper-case prefix in a lower-cased
    key and cannot fire, not even on a key that repeats the prefix. *)
Theorem C1_guard_at_failing_input :
  let line := "1a2b3c4 Merge branch 'feature/webdev-42' into develop" in
  let doubled :=
    "5d6e7f8 Merge branch 'feature/WEBDEV-42-WEBDEV-42' into develop" in
  names_branch line "feature/webdev-42"
  /\ split1 "/" "feature/webdev-42" = ["feature"; "webdev-42"]
  /\ startswith "webdev-" "webdev-42" = true
  /\ occurrences "webdev" (lower "webdev-42") = 1
  /\ parse_line "webdev" line = Skipped 5
  /\ parse_lines "webdev" [line] = []
  /\ contains "WEBDEV" (lower "WEBDEV-42-WEBDEV-42") = false
  /\ parse_line "WEBDEV" doubled = Resolved "WEBDEV-42" FEATURE.
Proof. cbv zeta. unfold names_branch. repeat split; vm_compute; reflexivity. Qed.

(** What the guard does on a line whose branch name splits into a
    type-prefix and a task key that starts with the issue prefix and a
    dash: it skips the line exactly when the lower-case form of the task
    key contains the issue prefix, as configured, at least once; for
    such keys that is the case exactly when the prefix has no upper-case
    letter.  A line that passes the guard makes a registry entry exactly
    when digits follow the dash. *)
Lemma typo_guard_fires (P line full tp tk : string) :
  names_branch line full ->
  split1 "/" full = [tp; tk] ->
  startswith (P ++ "-") tk = true ->
  (parse_line P line = Skipped 5 <-> contains P (lower tk) = true)
  /\ (contains P (lower tk) = true <-> 1 <= occurrences P (lower tk))
  /\ (contains P (lower tk) = true <-> lower P = P)
  /\ (contains P (lower tk) = false ->
      parse_line P line
      = match base_key_match P tk with
        | Some base_key => Resolved base_key (classify_branch_type tp)
        | None => Skipped 6
        end).
Proof.
  intros Hn Hs Ht.
  assert (Hf : contains "/" full = true).
  { rewrite contains_char. destruct (has_char "/" full) eqn:E; [reflexivity|].
    exfalso. revert Hs. clear -E.
    revert tp tk. induction full as [|c f IH]; intros tp tk; cbn [split1].
    - discriminate.
    - cbn [has_char] in E. apply orb_false_iff in E as [Ec E].
      rewrite Ec. destruct (split1 "/" f) as [|h [|h2 t]] eqn:S;
        try discriminate.
      intros H. injection H as _ H2. subst. now apply (IH E h tk). }
  assert (Hp : parse_line P line = parse_task P tp tk).
  { rewrite (parse_line_branch P _ _ Hn). unfold parse_branch.
    now rewrite Hf, Hs. }
  rewrite Hp. unfold parse_task. rewrite Ht. cbn [negb].
  split; [|split; [|split]].
  - destruct (contains P (lower tk)); [now split|].
    split; [|discriminate].
    destruct (base_key_match P tk); discriminate.
  - generalize (lower tk). intros s. induction s as [|c s IH].
    + cbn [contains occurrences]. rewrite orb_false_r.
      destruct (startswith P ""); cbn; split; (lia || congruence).
    + cbn [contains occurrences].
      destruct (startswith P (String c s)); cbn [orb].
      * split; [lia | reflexivity].
      * rewrite IH. cbn. reflexivity.
  - now apply guard_fires.
  - intros C. now rewrite C.
Qed.

(** *** The registry *)

Lemma dict_get_set_other {V} (k k' : string) (v : V) (d : dict V) :
  k' <> k -> dict_get k (dict_set k' v d) = dict_get k d.
Proof.
  intros Hne. induction d as [|[k0 v0] d IH]; cbn [dict_set dict_get].
  - destruct (String.eqb_spec k' k); [contradiction | reflexivity].
  - destruct (String.eqb_spec k0 k') as [->|n0]; cbn [dict_get].
    + destruct (String.eqb_spec k' k); [contradiction | reflexivity].
    + now rewrite IH.
Qed.

Lemma dict_get_set_same {V} (k : string) (v : V) (d : dict V) :
  dict_get k (dict_set k v d) = Some v.
Proof.
  induction d as [|[k0 v0] d IH]; cbn [dict_set dict_get].
  - now rewrite String.eqb_refl.
  - destruct (String.eqb_spec k0 k) as [->|n0]; cbn [dict_get].
    + now rewrite String.eqb_refl.
    + destruct (String.eqb_spec k0 k); [contradiction | exact IH].
Qed.

(** an entry of the registry survives every later line *)
Lemma record_keeps (tasks : dict BranchType) (r : line_result)
  (k : string) (b : BranchType) :
  dict_get k tasks = Some b -> dict_get k (record tasks r) = Some b.
Proof.
  intros H. destruct r as [n|k' b']; cbn [record]; [exact H|].
  unfold dict_mem. destruct (dict_get k' tasks) eqn:E; cbn [is_some];
    [exact H|].
  rewrite dict_get_set_other; [exact H|]. intros ->. congruence.
Qed.

Lemma parse_from_keeps (P : string) (lines : list string)
  (tasks : dict BranchType) (k : string) (b : BranchType) :
  dict_get k tasks = Some b ->
  dict_get k (parse_from P tasks lines) = Some b.
Proof.
  revert tasks. unfold parse_from.
  induction lines as [|l lines IH]; intros tasks H; [exact H|].
  cbn [fold_left]. apply IH. now apply record_keeps.
Qed.

Lemma parse_lines_app (P : string) (l1 l2 : list string) :
  parse_lines P (l1 ++ l2) = parse_from P (parse_lines P l1) l2.
Proof. unfold parse_lines, parse_from. apply fold_left_app. Qed.

(** C7: under the prefix WEBDEV the branch bugfix/WEBDEV-42 records the
    base key WEBDEV-42 as BUGFIX, and feature/WEBDEV-42-v2 resolves to
    the same base key; whatever the lines, a line that resolves to a base
    key already in the registry leaves the registry as it is, and the
    branch type recorded for a key is still the recorded one after all
    later lines. *)
Theorem C7_first_classification_wins :
  parse_lines "WEBDEV" ["1a2b3c4 Merge branch 'bugfix/WEBDEV-42' into develop"]
  = [("WEBDEV-42", BUGFIX)]
  /\ parse_line "WEBDEV" "5d6e7f8 Merge branch 'feature/WEBDEV-42-v2' into develop"
     = Resolved "WEBDEV-42" FEATURE
  /\ parse_lines "WEBDEV"
       ["1a2b3c4 Merge branch 'bugfix/WEBDEV-42' into develop";
        "5d6e7f8 Merge branch 'feature/WEBDEV-42-v2' into develop"]
     = [("WEBDEV-42", BUGFIX)]
  /\ (forall P before line after k b b',
        regex_literal P = true ->
        dict_get k (parse_lines P before) = Some b ->
        parse_line P line = Resolved k b' ->
        parse_lines P (before ++ [line]) = parse_lines P before
        /\ dict_get k (parse_lines P (before ++ line :: after)) = Some b).
Proof.
  split; [vm_compute; reflexivity|].
  split; [vm_compute; reflexivity|].
  split; [vm_compute; reflexivity|].
  intros P before line after k b b' _ Hk Hl. split.
  - rewrite parse_lines_app. unfold parse_from. cbn [fold_left].
    rewrite Hl. cbn [record]. unfold dict_mem. now rewrite Hk.
  - rewrite parse_lines_app. now apply parse_from_keeps.
Qed.

(** the theorem at a registry that holds WEBDEV-42 as BUGFIX and a later
    feature line for the same key *)
Lemma C7_first_classification_wins_witness :
  dict_get "WEBDEV-42"
    (parse_lines "WEBDEV"
       (["1a2b3c4 Merge branch 'bugfix/WEBDEV-42' into develop"]
        ++ "5d6e7f8 Merge branch 'feature/WEBDEV-42-v2' into develop"
           :: ["9a9b9c9 Merge branch 'mod/WEBDEV-42' into develop"]))
  = Some BUGFIX.
Proof.
  refine (proj2 (proj2 (proj2 (proj2 C7_first_classification_wins))
                   "WEBDEV" _ _ _ "WEBDEV-42" BUGFIX FEATURE
                   eq_refl _ _)); vm_compute; reflexivity.
Defined.

(** C9: when parsing records no base key, the run prints its one
    message, writes no file, asks the tracker nothing and ends with exit
    status zero. *)
Theorem C9_zero_issue_run (c : config) (merge_lines : list string)
  (search_issues : tracker) :
  regex_literal (ISSUE_PREFIX c) = true ->
  parse_lines (ISSUE_PREFIX c) merge_lines = [] ->
  run c merge_lines search_issues
  = {| stdout := ["Нет корректных задач " ++ ISSUE_PREFIX c ++ " для обработки."];
       release_notes_md := None;
       queries := [];
       how := Exit 0 |}.
Proof. intros _ H. unfold run. now rewrite H. Qed.

(** the theorem at a log without any issue branch *)
Lemma C9_zero_issue_run_witness :
  run {| RELEASE_VERSION := "1.2.6"; DEVELOP_VERSION := "1.3.0";
         RELEASE_DATE := "04.11.2026"; ISSUE_PREFIX := "WEBDEV" |}
    ["0000000 Merge branch 'main' into develop";
     "1111111 Merge remote-tracking branch 'origin/develop'"]
    (Some (fun _ _ => inl "no tracker"))
  = {| stdout := ["Нет корректных задач WEBDEV для обработки."];
       release_notes_md := None;
       queries := [];
       how := Exit 0 |}.
Proof.
  refine (C9_zero_issue_run
            {| RELEASE_VERSION := "1.2.6"; DEVELOP_VERSION := "1.3.0";
               RELEASE_DATE := "04.11.2026"; ISSUE_PREFIX := "WEBDEV" |}
            _ _ eq_refl _).
  vm_compute; reflexivity.
Defined.

End BuilderParse.




(** ** The Release Note Builder: grouping and the order of the groups *)

Module BuilderGroups.
Import PyStr PyStrFacts Builder BuilderSpec.

Lemma keys_dict_append (n k : string) (d : dict (list string)) :
  map fst (dict_append n k d) = see (map fst d) n.
Proof.
  unfold see. induction d as [|[n0 l] d IH]; [reflexivity|].
  cbn [dict_append map fst in_tuple existsb].
  rewrite (String.eqb_sym n n0).
  destruct (String.eqb n0 n); cbn [orb map fst]; [reflexivity|].
  rewrite IH. unfold in_tuple.
  now destruct (existsb (String.eqb n) (map fst d)).
Qed.

Lemma keys_make_group_from (tasks : dict BranchType)
  (groups : dict (list string)) :
  map fst (make_group_from groups tasks)
  = fold_left see (map (fun kb => group_name (snd kb)) tasks)
      (map fst groups).
Proof.
  revert groups. unfold make_group_from.
  induction tasks as [|[k b] tasks IH]; intros groups; [reflexivity|].
  cbn [fold_left map fst snd]. now rewrite IH, keys_dict_append.
Qed.

Lemma in_tuple_app (x : string) (a b : list string) :
  in_tuple x (a ++ b) = in_tuple x a || in_tuple x b.
Proof. unfold in_tuple. apply existsb_app. Qed.

Lemma filter_filter {A} (f g : A -> bool) (l : list A) :
  filter f (filter g l) = filter (fun x => g x && f x) l.
Proof.
  induction l as [|x l IH]; [reflexivity|].
  cbn [filter]. destruct (g x); cbn [filter andb]; now rewrite IH.
Qed.

(** seeing a list of names appends those not yet seen, each at its
    first occurrence *)
Lemma fold_see (l acc : list string) :
  fold_left see l acc
  = (acc ++ filter (fun y => negb (in_tuple y acc)) (first_seen l))%list.
Proof.
  revert acc. induction l as [|x l IH]; intros acc.
  - cbn. now rewrite app_nil_r.
  - cbn [fold_left first_seen filter]. rewrite IH. unfold see.
    destruct (in_tuple x acc) eqn:E; cbn [negb].
    + f_equal. rewrite filter_filter. apply filter_ext_in. intros y _.
      destruct (String.eqb_spec y x) as [->|n]; cbn [negb andb];
        [now rewrite E | reflexivity].
    + rewrite <- List.app_assoc. cbn [List.app]. do 2 f_equal.
      rewrite filter_filter. apply filter_ext_in. intros y _.
      rewrite in_tuple_app. cbn [in_tuple existsb].
      rewrite orb_false_r, negb_orb. apply andb_comm.
Qed.

Lemma keys_make_group (tasks : dict BranchType) :
  map fst (make_group tasks)
  = first_seen (map (fun kb => group_name (snd kb)) tasks).
Proof.
  change (make_group tasks) with (make_group_from [] tasks).
  rewrite keys_make_group_from, fold_see. cbn [map List.app].
  rewrite <- (filter_ext (fun _ => true)); [|reflexivity].
  induction (first_seen _) as [|x l IH]; [reflexivity|].
  cbn [filter]. now rewrite IH.
Qed.

(** no group is empty *)
Lemma dict_append_nonempty (n k : string) (d : dict (list string)) :
  Forall (fun g => snd g <> []) d ->
  Forall (fun g => snd g <> []) (dict_append n k d).
Proof.
  induction 1 as [|[n0 l] d Hg Hd IH]; cbn [dict_append].
  - constructor; [discriminate | constructor].
  - destruct (String.eqb n0 n); constructor; try assumption.
    cbn [snd]. now destruct l.
Qed.

Lemma make_group_nonempty (tasks : dict BranchType) :
  Forall (fun g => snd g <> []) (make_group tasks).
Proof.
  change (make_group tasks) with (make_group_from [] tasks).
  generalize (Forall_nil (fun g : string * list string => snd g <> [])).
  generalize (@nil (string * list string)). unfold make_group_from.
  induction tasks as [|[k b] tasks IH]; intros groups H; [exact H|].
  cbn [fold_left]. apply IH. now apply dict_append_nonempty.
Qed.

(** *** The header lines of the document *)

Lemma group_headers_app (a b : list string) :
  group_headers (a ++ b) = (group_headers a ++ group_headers b)%list.
Proof. apply filter_app. Qed.

Lemma header_line_is_header (name : string) :
  startswith "- **" (header_line name) = true.
Proof. unfold header_line, startswith. now rewrite strip_prefix_app. Qed.

Lemma bullets_no_header (issue_data : dict (option Issue))
  (ks bs : list string) :
  bullets issue_data ks = Some bs -> group_headers bs = [].
Proof.
  revert bs. induction ks as [|k ks IH]; intros bs; cbn [bullets].
  - now intros [= <-].
  - destruct (bullet issue_data k) as [b|] eqn:B; [|discriminate].
    destruct (bullets issue_data ks) as [r|]; [|discriminate].
    intros [= <-]. unfold group_headers. cbn [filter].
    fold (group_headers r). rewrite (IH r eq_refl).
    unfold bullet in B. destruct (dict_get k issue_data) as [i|];
      [|discriminate].
    destruct i as [i|]; injection B as <-; reflexivity.
Qed.

Lemma render_group_headers (issue_data : dict (option Issue))
  (name : string) (keys ls : list string) :
  keys <> [] ->
  render_group issue_data (name, keys) = Some ls ->
  group_headers ls = [header_line name].
Proof.
  intros Hne. cbn [render_group].
  destruct keys as [|k keys]; [congruence|].
  destruct (sorted_keys (k :: keys)) as [sk|]; [|discriminate].
  destruct (bullets issue_data sk) as [bs|] eqn:B; [|discriminate].
  intros [= <-].
  change (group_headers (header_line name :: List.app bs [""])
          = [header_line name]).
  unfold group_headers. cbn [filter]. rewrite header_line_is_header.
  f_equal. fold (group_headers (bs ++ [""])).
  rewrite group_headers_app, (bullets_no_header _ _ _ B). reflexivity.
Qed.

Lemma render_groups_headers (issue_data : dict (option Issue))
  (groups : dict (list string)) (body : list string) :
  Forall (fun g => snd g <> []) groups ->
  render_groups issue_data groups = Some body ->
  group_headers body = map header_line (map fst groups).
Proof.
  intros H. revert body.
  induction H as [|[name keys] groups Hg Hgs IH]; intros body;
    cbn [render_groups].
  - now intros [= <-].
  - destruct (render_group issue_data (name, keys)) as [a|] eqn:A;
      [|discriminate].
    destruct (render_groups issue_data groups) as [b|]; [|discriminate].
    intros [= <-]. rewrite group_headers_app, (IH b eq_refl).
    now rewrite (render_group_headers _ _ _ _ Hg A).
Qed.

Lemma output_lines_headers (c : config) (issue_data : dict (option Issue))
  (groups : dict (list string)) (out : list string) :
  Forall (fun g => snd g <> []) groups ->
  output_lines c issue_data groups = Some out ->
  group_headers out = map header_line (map fst groups).
Proof.
  intros H. unfold output_lines.
  destruct (render_groups issue_data groups) as [body|] eqn:B;
    [|discriminate].
  intros [= <-]. rewrite <- (render_groups_headers _ _ _ H B).
  unfold group_headers. cbn [List.app filter].
  change (startswith "- **" "### Release Notes") with false.
  change (startswith "- **" "") with false.
  change (startswith "- **" ("Release Version: " ++ RELEASE_VERSION c))
    with false.
  change (startswith "- **" ("Develop Version: " ++ DEVELOP_VERSION c))
    with false.
  change (startswith "- **" ("Дата релиза: " ++ RELEASE_DATE c)) with false.
  change (startswith "- **" "### Основные изменения:") with false.
  cbn iota. rewrite filter_app. cbn [filter].
  change (startswith "- **" "#release #backend #patch") with false.
  cbn iota. apply app_nil_r.
Qed.

(** C2, as stated, fails: a log whose first issue is a bug fix renders
    the Bugfix group before the Feature group, and the same two lines in
    the other order render the groups the other way round. *)
Lemma C2_counterexample :
  let c := {| RELEASE_VERSION := "1.2.6"; DEVELOP_VERSION := "1.3.0";
              RELEASE_DATE := "04.11.2026"; ISSUE_PREFIX := "WEBDEV" |} in
  let fix_line := "1a2b3c4 Merge branch 'bugfix/WEBDEV-1' into develop" in
  let feature_line := "5d6e7f8 Merge branch 'feature/WEBDEV-2' into develop" in
  let document lines :=
    let tasks := parse_lines "WEBDEV" lines in
    output_lines c (build_issue_data [] (dict_keys tasks))
      (make_group tasks) in
  option_map group_headers (document [fix_line; feature_line])
  = Some [header_line (group_name BUGFIX); header_line (group_name FEATURE)]
  /\ option_map group_headers (document [feature_line; fix_line])
     = Some [header_line (group_name FEATURE); header_line (group_name BUGFIX)].
Proof. cbv zeta. split; vm_compute; reflexivity. Qed.

(** C2, amended: in the output document the groups, none of them empty,
    appear in the order in which the registry first holds a key of each
    group, that is, in the order in which the parsed lines first brought
    each branch type. *)
Theorem C2_group_order (c : config) (tasks : dict BranchType)
  (issue_data : dict (option Issue)) (out : list string) :
  output_lines c issue_data (make_group tasks) = Some out ->
  group_headers out
  = map header_line
      (first_seen (map (fun kb => group_name (snd kb)) tasks))
  /\ Forall (fun g => snd g <> []) (make_group tasks).
Proof.
  intros H. split; [|apply make_group_nonempty].
  rewrite (output_lines_headers _ _ _ _ (make_group_nonempty tasks) H).
  now rewrite keys_make_group.
Qed.

(** the theorem at a registry whose first key is a bug fix *)
Lemma C2_group_order_witness :
  let c := {| RELEASE_VERSION := "1.2.6"; DEVELOP_VERSION := "1.3.0";
              RELEASE_DATE := "04.11.2026"; ISSUE_PREFIX := "WEBDEV" |} in
  let tasks := [("WEBDEV-1", BUGFIX); ("WEBDEV-2", FEATURE);
                ("WEBDEV-3", BUGFIX)] in
  exists out,
    output_lines c (build_issue_data [] (dict_keys tasks)) (make_group tasks)
    = Some out
    /\ group_headers out
       = [header_line (group_name BUGFIX); header_line (group_name FEATURE)].
Proof.
  cbv zeta. destruct (output_lines _ _ _) as [out|] eqn:E.
  - exists out. split; [reflexivity|].
    rewrite (proj1 (C2_group_order _ _ _ _ E)). vm_compute; reflexivity.
  - vm_compute in E. discriminate E.
Defined.

End BuilderGroups.


(** ** The Release Note Builder: the order inside a group *)

Module BuilderSort.
Import PyStr PyStrFacts Builder BuilderSpec BuilderGroups.

(** *** The insertion sort *)

Lemma insert_keyed_perm (a : Z * string) (l : list (Z * string)) :
  Permutation (a :: l) (insert_keyed a l).
Proof.
  induction l as [|b l IH]; cbn [insert_keyed]; [apply Permutation_refl|].
  destruct (fst a <=? fst b)%Z; [apply Permutation_refl|].
  eapply perm_trans; [apply perm_swap|]. now apply perm_skip.
Qed.

Lemma sort_keyed_perm (l : list (Z * string)) :
  Permutation l (sort_keyed l).
Proof.
  induction l as [|a l IH]; cbn [sort_keyed]; [constructor|].
  eapply perm_trans; [apply perm_skip, IH | apply insert_keyed_perm].
Qed.

Lemma insert_keyed_sorted (a : Z * string) (l : list (Z * string)) :
  StronglySorted fst_le l -> StronglySorted fst_le (insert_keyed a l).
Proof.
  induction 1 as [|b l Hs IH Hb]; cbn [insert_keyed].
  - repeat constructor.
  - destruct (Z.leb_spec (fst a) (fst b)) as [Hle|Hgt].
    + constructor; [now constructor|].
      constructor; [exact Hle|].
      eapply Forall_impl; [|exact Hb]. unfold fst_le. intros c Hc. lia.
    + constructor; [exact IH|].
      eapply Permutation_Forall; [apply insert_keyed_perm|].
      constructor; [unfold fst_le; lia | exact Hb].
Qed.

Lemma sort_keyed_sorted (l : list (Z * string)) :
  StronglySorted fst_le (sort_keyed l).
Proof.
  induction l as [|a l IH]; cbn [sort_keyed]; [constructor|].
  now apply insert_keyed_sorted.
Qed.

(** *** The keys *)

Lemma keyed_spec (l : list string) (kl : list (Z * string)) :
  keyed l = Some kl ->
  map snd kl = l /\ Forall (fun p => sort_key (snd p) = Some (fst p)) kl.
Proof.
  revert kl. induction l as [|x l IH]; intros kl; cbn [keyed].
  - intros [= <-]. split; constructor.
  - destruct (sort_key x) as [n|] eqn:E; [|discriminate].
    destruct (keyed l) as [r|]; [|discriminate].
    intros [= <-]. destruct (IH r eq_refl) as [H1 H2].
    split; [cbn; now rewrite H1 | now constructor].
Qed.

Lemma keyed_total (l : list string) :
  Forall (fun x => exists n, sort_key x = Some n) l ->
  exists kl, keyed l = Some kl.
Proof.
  induction 1 as [|x l [n Hn] Hl [r Hr]]; cbn [keyed].
  - now exists [].
  - rewrite Hn, Hr. now eexists.
Qed.

Lemma sorted_map_snd (kl : list (Z * string)) :
  Forall (fun p => sort_key (snd p) = Some (fst p)) kl ->
  StronglySorted fst_le kl -> StronglySorted key_le (map snd kl).
Proof.
  intros Hk Hs. induction Hs as [|a l Hs IH Ha]; cbn [map]; [constructor|].
  apply Forall_cons_iff in Hk as [Hka Hkl].
  constructor; [now apply IH|].
  apply Forall_map. apply Forall_forall. intros b Hb.
  exists (fst a), (fst b). repeat split; [exact Hka | | ].
  - exact (proj1 (Forall_forall _ _) Hkl b Hb).
  - exact (proj1 (Forall_forall _ _) Ha b Hb).
Qed.

(** when every element has a numeric key, [sorted] succeeds and gives
    the elements in ascending order of their keys *)
Lemma sorted_keys_spec (keys : list string) :
  Forall (fun x => exists n, sort_key x = Some n) keys ->
  exists sk,
    sorted_keys keys = Some sk /\ Permutation keys sk
    /\ StronglySorted key_le sk.
Proof.
  intros H. destruct (keyed_total _ H) as [kl Hkl].
  destruct (keyed_spec _ _ Hkl) as [Hm Hf].
  exists (map snd (sort_keyed kl)). unfold sorted_keys. rewrite Hkl.
  split; [reflexivity|]. split.
  - rewrite <- Hm. apply Permutation_map, sort_keyed_perm.
  - apply sorted_map_snd; [|apply sort_keyed_sorted].
    eapply Permutation_Forall; [apply sort_keyed_perm | exact Hf].
Qed.

(** *** The shape of the recorded keys *)

Lemma digits_run_all (r : string) : all_digits (digits_run r) = true.
Proof.
  induction r as [|c r IH]; [reflexivity|].
  cbn [digits_run]. destruct (is_digit c) eqn:E; [|reflexivity].
  cbn [all_digits]. now rewrite E, IH.
Qed.

Lemma base_key_match_shape (P tk k : string) :
  base_key_match P tk = Some k -> base_key_shape P k.
Proof.
  unfold base_key_match.
  destruct (strip_prefix (P ++ "-") tk) as [r|]; [|discriminate].
  pose proof (digits_run_all r) as Hd.
  destruct (digits_run r) as [|c d] eqn:E; [discriminate|].
  intros [= <-]. exists (String c d). now repeat split.
Qed.

Lemma parse_line_shape (P line k : string) (b : BranchType) :
  parse_line P line = Resolved k b -> base_key_shape P k.
Proof.
  unfold parse_line. cbv zeta.
  destruct (_ || _ || _); [discriminate|].
  destruct (search_merge_branch (strip line)) as [full|]; [|discriminate].
  unfold parse_branch.
  destruct (negb (contains "/" full)); [discriminate|].
  destruct (split1 "/" full) as [|tp [|tk [|x t]]]; try discriminate.
  unfold parse_task.
  destruct (negb (startswith (P ++ "-") tk)); [discriminate|].
  destruct (contains P (lower tk)); [discriminate|].
  destruct (base_key_match P tk) as [k'|] eqn:E; [|discriminate].
  intros [= <- _]. exact (base_key_match_shape _ _ _ E).
Qed.

Lemma keys_dict_set {V} (k : string) (v : V) (d : dict V) (x : string) :
  In x (dict_keys (dict_set k v d)) -> x = k \/ In x (dict_keys d).
Proof.
  unfold dict_keys. induction d as [|[k0 v0] d IH]; cbn [dict_set map fst].
  - intros [<-|[]]. now left.
  - destruct (String.eqb_spec k0 k) as [->|n]; cbn [map fst In].
    + intros [<-|H]; [now left | right; now right].
    + intros [<-|H]; [right; now left|].
      destruct (IH H) as [->|H']; [now left | right; now right].
Qed.

Lemma parse_lines_shape (P : string) (lines : list string) (k : string) :
  In k (dict_keys (parse_lines P lines)) -> base_key_shape P k.
Proof.
  unfold parse_lines.
  assert (G : forall tasks,
             (forall x, In x (dict_keys tasks) -> base_key_shape P x) ->
             forall x, In x (dict_keys (parse_from P tasks lines)) ->
                       base_key_shape P x).
  { unfold parse_from. induction lines as [|l lines IH]; intros tasks H;
      [exact H|].
    cbn [fold_left]. apply IH. intros x.
    destruct (parse_line P l) as [n|k' b'] eqn:E; cbn [record];
      [apply H|].
    destruct (dict_mem k' tasks); [apply H|].
    intros Hx. destruct (keys_dict_set _ _ _ _ Hx) as [->|Hx'];
      [exact (parse_line_shape _ _ _ _ E) | now apply H]. }
  apply G. intros x [].
Qed.

(** *** The sort key of a well-shaped key *)

Lemma digit_not_space (c : ascii) : is_digit c = true -> is_space c = false.
Proof.
  destruct c as [[] [] [] [] [] [] [] []]; vm_compute; intros H;
    first [reflexivity | discriminate H].
Qed.

Lemma digit_not_dash (c : ascii) : is_digit c = true -> Ascii.eqb c "-" = false.
Proof.
  destruct c as [[] [] [] [] [] [] [] []]; vm_compute; intros H;
    first [reflexivity | discriminate H].
Qed.

Lemma all_digits_no_dash (d : string) :
  all_digits d = true -> has_char "-" d = false.
Proof.
  induction d as [|c d IH]; [reflexivity|].
  cbn [all_digits has_char]. intros H. apply andb_true_iff in H as [Hc H].
  now rewrite (digit_not_dash _ Hc), IH.
Qed.

Lemma rstrip_digits (d : string) : all_digits d = true -> rstrip d = d.
Proof.
  induction d as [|c d IH]; [reflexivity|].
  cbn [all_digits rstrip]. intros H. apply andb_true_iff in H as [Hc H].
  rewrite (IH H), (digit_not_space _ Hc). now destruct d.
Qed.

Lemma strip_digits (d : string) : all_digits d = true -> strip d = d.
Proof.
  intros H. unfold strip.
  assert (L : lstrip d = d).
  { destruct d as [|c d]; [reflexivity|]. cbn [all_digits] in H.
    apply andb_true_iff in H as [Hc _]. cbn [lstrip].
    now rewrite (digit_not_space _ Hc). }
  rewrite L. now apply rstrip_digits.
Qed.

Lemma int_digits_value (d : string) (acc : Z) (prev : bool) :
  all_digits d = true -> d <> "" \/ prev = true ->
  int_digits acc prev d = Some (digits_value acc d).
Proof.
  revert acc prev. induction d as [|c d IH]; intros acc prev H Hp.
  - destruct Hp as [Hp| ->]; [congruence | reflexivity].
  - cbn [all_digits] in H. apply andb_true_iff in H as [Hc H].
    cbn [int_digits digits_value]. rewrite Hc. apply IH; [exact H | now right].
Qed.

Lemma count_digits_all (d : string) :
  all_digits d = true -> count_digits d = String.length d.
Proof.
  induction d as [|c d IH]; [reflexivity|].
  cbn [all_digits count_digits String.length]. intros H.
  apply andb_true_iff in H as [Hc H]. now rewrite Hc, (IH H).
Qed.

(** a digit at the head is no sign *)
Lemma int_head_digit (c : ascii) (d : string) :
  is_digit c = true -> strip (String c d) = String c d ->
  int (String c d) = int_literal (String c d).
Proof.
  intros Hc Hs. unfold int. rewrite Hs.
  destruct c as [[] [] [] [] [] [] [] []]; try discriminate Hc; reflexivity.
Qed.

Lemma int_of_digits (d : string) :
  all_digits d = true -> d <> "" -> short d ->
  int d = Some (digits_value 0 d).
Proof.
  intros H Hne Hs. destruct d as [|c d]; [congruence|].
  assert (Hc : is_digit c = true).
  { cbn [all_digits] in H. now apply andb_true_iff in H as [Hc _]. }
  rewrite (int_head_digit c d Hc (strip_digits _ H)).
  unfold int_literal.
  rewrite (int_digits_value _ 0 false H (or_introl Hne)).
  rewrite (count_digits_all _ H).
  unfold short in Hs. apply Z.leb_le in Hs. now rewrite Hs.
Qed.

(** more digits than the interpreter converts *)
Lemma int_of_long_digits (d : string) :
  all_digits d = true -> d <> "" -> ~ short d -> int d = None.
Proof.
  intros H Hne Hs. destruct d as [|c d]; [congruence|].
  assert (Hc : is_digit c = true).
  { cbn [all_digits] in H. now apply andb_true_iff in H as [Hc _]. }
  rewrite (int_head_digit c d Hc (strip_digits _ H)).
  unfold int_literal.
  rewrite (int_digits_value _ 0 false H (or_introl Hne)).
  rewrite (count_digits_all _ H).
  unfold short in Hs. apply Z.leb_nle in Hs. now rewrite Hs.
Qed.

Lemma split_first (c : ascii) (a b : string) :
  has_char c a = false -> split c (a ++ String c b) = a :: split c b.
Proof.
  induction a as [|d a IH]; cbn [has_char append split]; intros H.
  - now rewrite Ascii.eqb_refl.
  - apply orb_false_iff in H as [Hd H]. now rewrite Hd, (IH H).
Qed.

Lemma split_none (c : ascii) (a : string) :
  has_char c a = false -> split c a = [a].
Proof.
  induction a as [|d a IH]; cbn [has_char split]; intros H; [reflexivity|].
  apply orb_false_iff in H as [Hd H]. now rewrite Hd, (IH H).
Qed.

Lemma short_part (a b : string) : short (a ++ b) -> short b.
Proof. unfold short. rewrite length_app. lia. Qed.

Lemma sort_key_shape (P k : string) :
  has_char "-" P = false -> base_key_shape P k -> short k ->
  exists d, k = P ++ "-" ++ d /\ d <> "" /\ all_digits d = true
            /\ sort_key k = Some (digits_value 0 d).
Proof.
  intros HP (d & -> & Hne & Hd) Hs. exists d. repeat split; try assumption.
  unfold sort_key. change (P ++ "-" ++ d) with (P ++ String "-" d).
  rewrite (split_first _ _ _ HP), (split_none _ _ (all_digits_no_dash _ Hd)).
  cbn [nth_error]. apply int_of_digits; try assumption.
  apply (short_part "-"), (short_part P). exact Hs.
Qed.

(** *** The keys of the groups are keys of the registry *)

Lemma dict_append_keys (n k : string) (d : dict (list string))
  (g : string * list string) (x : string) :
  In g (dict_append n k d) -> In x (snd g) ->
  x = k \/ exists g0, In g0 d /\ In x (snd g0).
Proof.
  induction d as [|[n0 l] d IH]; cbn [dict_append].
  - intros [<-|[]] [<-|[]]. now left.
  - destruct (String.eqb n0 n).
    + intros [<-|Hg] Hx.
      * cbn [snd] in Hx. apply in_app_or in Hx as [Hx|[<-|[]]];
          [right | now left].
        exists (n0, l). split; [now left | exact Hx].
      * right. exists g. split; [now right | exact Hx].
    + intros [<-|Hg] Hx.
      * right. exists (n0, l). split; [now left | exact Hx].
      * destruct (IH Hg Hx) as [->|(g0 & H0 & Hx0)]; [now left|].
        right. exists g0. split; [now right | exact Hx0].
Qed.

Lemma make_group_keys (tasks : dict BranchType)
  (g : string * list string) (x : string) :
  In g (make_group tasks) -> In x (snd g) -> In x (dict_keys tasks).
Proof.
  change (make_group tasks) with (make_group_from [] tasks).
  assert (G : forall groups,
             In g (make_group_from groups tasks) -> In x (snd g) ->
             In x (dict_keys tasks)
             \/ exists g0, In g0 groups /\ In x (snd g0)).
  { unfold make_group_from, dict_keys.
    induction tasks as [|[k b] tasks IH]; intros groups Hg Hx.
    - right. now exists g.
    - cbn [fold_left fst snd] in Hg.
      destruct (IH _ Hg Hx) as [H|(g0 & H0 & Hx0)].
      + left. now right.
      + destruct (dict_append_keys _ _ _ _ _ H0 Hx0) as [->|H1].
        * left. now left.
        * now right. }
  intros Hg Hx. destruct (G [] Hg Hx) as [H|(g0 & [] & _)]. exact H.
Qed.

(** C8: the code fails the claim.  Under the issue prefix WEB-DEV the
    branch feature/WEB-DEV-42 records the base key WEB-DEV-42, which has
    the shape prefix, dash, digits; the sort reads the second piece of
    the key cut at its dashes, DEV, which is no number, so the sort key
    does not exist and the run, once the tracker has answered, ends with
    the uncaught [ValueError] and writes no file. *)
Theorem C8_dashed_prefix_raises :
  let line := "1a2b3c4 Merge branch 'feature/WEB-DEV-42' into develop" in
  let c := {| RELEASE_VERSION := "1.2.6"; DEVELOP_VERSION := "1.3.0";
              RELEASE_DATE := "04.11.2026"; ISSUE_PREFIX := "WEB-DEV" |} in
  parse_lines "WEB-DEV" [line] = [("WEB-DEV-42", FEATURE)]
  /\ base_key_match "WEB-DEV" "WEB-DEV-42" = Some "WEB-DEV-42"
  /\ nth_error (split "-" "WEB-DEV-42") 1 = Some "DEV"
  /\ int "DEV" = None
  /\ sort_key "WEB-DEV-42" = None
  /\ sorted_keys ["WEB-DEV-42"] = None
  /\ run c [line] (Some (fun _ _ => inr []))
     = {| stdout := ["Запрашиваю 1 задач из Jira..."];
          release_notes_md := None;
          queries := ["issueKey IN (WEB-DEV-42)"];
          how := Uncaught |}.
Proof. cbv zeta. repeat split; vm_compute; reflexivity. Qed.

End BuilderSort.


(** ** Further properties: branch types and the search for a branch name *)

Module MoreParse.
Import PyStr PyStrFacts Builder BuilderSpec BuilderParse ExtractorSpec.

Lemma in_tuple_In (x : string) (t : list string) :
  in_tuple x t = true <-> In x t.
Proof.
  unfold in_tuple. rewrite existsb_exists. split.
  - intros (y & Hy & E). apply String.eqb_eq in E. now subst.
  - intros H. exists x. split; [exact H | apply String.eqb_refl].
Qed.

(** X1: the branch type of a type-prefix is decided by its lower-case
    form alone: it is the one type that lists that form among its
    aliases, and OTHER when no type does. *)
Theorem classify_by_alias (pref : string) :
  classify_branch_type (lower pref) = classify_branch_type pref
  /\ (forall b, In (lower pref) (aliases b) -> classify_branch_type pref = b)
  /\ (classify_branch_type pref = OTHER
      <-> forall b, ~ In (lower pref) (aliases b))
  /\ (classify_branch_type pref <> OTHER ->
      In (lower pref) (aliases (classify_branch_type pref))).
Proof.
  split; [unfold classify_branch_type; cbv zeta; now rewrite lower_idem|].
  assert (A : forall b, In (lower pref) (aliases b) ->
                        classify_branch_type pref = b).
  { intros b H. unfold classify_branch_type. cbv zeta.
    destruct b; cbn in H; intuition (subst; try contradiction);
      match goal with E : _ = lower pref |- _ => rewrite <- E end;
      reflexivity. }
  assert (B : classify_branch_type pref <> OTHER ->
              In (lower pref) (aliases (classify_branch_type pref))).
  { unfold classify_branch_type. cbv zeta.
    destruct (in_tuple (lower pref) (aliases FEATURE)) eqn:F;
      [intros _; now apply in_tuple_In|].
    destruct (in_tuple (lower pref) (aliases MOD)) eqn:M;
      [intros _; now apply in_tuple_In|].
    destruct (in_tuple (lower pref) (aliases BUGFIX)) eqn:G;
      [intros _; now apply in_tuple_In|].
    congruence. }
  split; [exact A|]. split; [|exact B].
  split.
  - intros E b H. pose proof (A b H) as H'. rewrite E in H'. subst b.
    exact H.
  - intros N. destruct (classify_branch_type pref) eqn:E; try reflexivity;
      exfalso; (eapply N; apply B; [congruence]).
Qed.

(** *** The branch name of a line *)

Lemma quoted_run_spec (s b : string) :
  quoted_run s = Some b <->
  exists post, s = b ++ "'" ++ post /\ quote_free b.
Proof.
  unfold quote_free. split.
  - revert b. induction s as [|c s IH]; intros b; cbn [quoted_run];
      [discriminate|].
    destruct (Ascii.eqb_spec c QUOTE) as [->|n].
    + intros [= <-]. now exists s.
    + destruct (quoted_run s) as [r|]; [|discriminate].
      intros [= <-]. destruct (IH r eq_refl) as (post & -> & Hr).
      exists post. split; [reflexivity|]. cbn [has_char].
      apply Ascii.eqb_neq in n. now rewrite n, Hr.
  - intros (post & -> & Hb). induction b as [|c b IH].
    + reflexivity.
    + cbn [has_char] in Hb. apply orb_false_iff in Hb as [Hc Hb].
      change (String c b ++ "'" ++ post) with (String c (b ++ "'" ++ post)).
      cbn [quoted_run]. now rewrite Hc, (IH Hb).
Qed.

Lemma quoted_name_spec (s b : string) :
  quoted_name s = Some b <->
  exists post, s = b ++ "'" ++ post /\ quote_free b /\ b <> "".
Proof.
  unfold quoted_name. split.
  - destruct (quoted_run s) as [r|] eqn:E; [|discriminate].
    apply quoted_run_spec in E as (post & -> & Hr).
    destruct r as [|c r]; [discriminate|].
    intros [= <-]. exists post. now repeat split.
  - intros (post & Hs & Hb & Hne).
    rewrite (proj2 (quoted_run_spec s b)) by now exists post.
    destruct b; [congruence | reflexivity].
Qed.

Lemma search_merge_branch_sound (l b : string) :
  search_merge_branch l = Some b ->
  exists pre post,
    l = pre ++ "Merge branch '" ++ b ++ "'" ++ post
    /\ quote_free b /\ b <> "".
Proof.
  revert b. induction l as [|c l IH]; intros b; cbn [search_merge_branch].
  - cbn. discriminate.
  - destruct (strip_prefix "Merge branch '" (String c l)) as [s|] eqn:E.
    + apply strip_prefix_inv in E.
      destruct (quoted_name s) as [b'|] eqn:Q.
      * intros [= <-]. apply quoted_name_spec in Q as (post & -> & H1 & H2).
        exists "", post. now rewrite E.
      * intros H. destruct (IH _ H) as (pre & post & -> & H1 & H2).
        now exists (String c pre), post.
    + intros H. destruct (IH _ H) as (pre & post & -> & H1 & H2).
      now exists (String c pre), post.
Qed.

Lemma search_merge_branch_complete (pre b post : string) :
  quote_free b -> b <> "" ->
  search_merge_branch (pre ++ "Merge branch '" ++ b ++ "'" ++ post) <> None.
Proof.
  intros Hb Hne. induction pre as [|c pre IH].
  - change ("" ++ "Merge branch '" ++ b ++ "'" ++ post)
      with (String "M" ("erge branch '" ++ b ++ "'" ++ post)).
    cbn [search_merge_branch].
    change (String "M" ("erge branch '" ++ b ++ "'" ++ post))
      with ("Merge branch '" ++ b ++ "'" ++ post).
    rewrite strip_prefix_app.
    rewrite (proj2 (quoted_name_spec _ b)) by now exists post.
    discriminate.
  - change (String c pre ++ "Merge branch '" ++ b ++ "'" ++ post)
      with (String c (pre ++ "Merge branch '" ++ b ++ "'" ++ post)).
    cbn [search_merge_branch].
    destruct (match strip_prefix "Merge branch '" _ with
              | Some s => quoted_name s
              | None => None
              end); [discriminate | exact IH].
Qed.

(** X2: the branch name the Builder takes from a line is a quoted,
    non-empty, quote-free text right after the words Merge branch and a
    space, and the Builder finds none exactly when the line has no such
    text. *)
Theorem search_merge_branch_spec (line : string) :
  (forall b, search_merge_branch line = Some b ->
             exists pre post,
               line = pre ++ "Merge branch '" ++ b ++ "'" ++ post
               /\ quote_free b /\ b <> "")
  /\ (search_merge_branch line = None <->
      ~ exists pre b post,
          line = pre ++ "Merge branch '" ++ b ++ "'" ++ post
          /\ quote_free b /\ b <> "").
Proof.
  split; [apply search_merge_branch_sound|]. split.
  - intros N (pre & b & post & -> & Hb & Hne).
    exact (search_merge_branch_complete _ _ _ Hb Hne N).
  - intros N. destruct (search_merge_branch line) as [b|] eqn:E;
      [|reflexivity].
    exfalso. apply N.
    destruct (search_merge_branch_sound _ _ E) as (pre & post & H).
    now exists pre, b, post.
Qed.

(** *** The registry as a whole *)

Lemma dict_get_None {V} (k : string) (d : dict V) :
  dict_get k d = None <-> ~ In k (dict_keys d).
Proof.
  unfold dict_keys. induction d as [|[k0 v0] d IH]; cbn [dict_get map fst In].
  - tauto.
  - destruct (String.eqb_spec k0 k) as [->|n].
    + split; [discriminate | intros H; exfalso; apply H; now left].
    + rewrite IH. tauto.
Qed.

Lemma dict_set_new {V} (k : string) (v : V) (d : dict V) :
  dict_get k d = None -> dict_set k v d = (d ++ [(k, v)])%list.
Proof.
  induction d as [|[k0 v0] d IH]; cbn [dict_get dict_set]; [reflexivity|].
  destruct (String.eqb k0 k); [discriminate|].
  intros H. now rewrite (IH H).
Qed.

(** the keys after one more line *)
Lemma record_keys (tasks : dict BranchType) (r : line_result) :
  dict_keys (record tasks r)
  = match r with
    | Resolved k _ =>
        if dict_mem k tasks then dict_keys tasks
        else (dict_keys tasks ++ [k])%list
    | Skipped _ => dict_keys tasks
    end.
Proof.
  destruct r as [n|k b]; cbn [record]; [reflexivity|].
  unfold dict_mem. destruct (dict_get k tasks) eqn:E; cbn [is_some];
    [reflexivity|].
  rewrite (dict_set_new _ _ _ E). unfold dict_keys.
  now rewrite map_app.
Qed.

Lemma parse_from_nodup (P : string) (lines : list string)
  (tasks : dict BranchType) :
  NoDup (dict_keys tasks) -> NoDup (dict_keys (parse_from P tasks lines)).
Proof.
  revert tasks. unfold parse_from.
  induction lines as [|l lines IH]; intros tasks H; [exact H|].
  cbn [fold_left]. apply IH. rewrite record_keys.
  destruct (parse_line P l) as [n|k b]; [exact H|].
  unfold dict_mem. destruct (dict_get k tasks) eqn:E; cbn [is_some];
    [exact H|].
  apply dict_get_None in E.
  apply NoDup_rev in H. rewrite <- (rev_involutive (_ ++ _)).
  apply NoDup_rev. rewrite rev_app_distr. cbn [rev List.app].
  constructor; [|exact H]. now rewrite <- in_rev.
Qed.

Lemma parse_from_keys (P : string) (lines : list string)
  (tasks : dict BranchType) (k : string) :
  In k (dict_keys (parse_from P tasks lines))
  <-> In k (dict_keys tasks)
      \/ exists line b, In line lines /\ parse_line P line = Resolved k b.
Proof.
  revert tasks. unfold parse_from.
  induction lines as [|l lines IH]; intros tasks.
  - cbn [fold_left]. split; [now left|].
    intros [H|(line & b & [] & _)]. exact H.
  - cbn [fold_left]. rewrite IH, record_keys. split.
    + intros [H|(line & b & Hl & Hr)].
      * destruct (parse_line P l) as [n|k' b'] eqn:E; [now left|].
        destruct (dict_mem k' tasks); [now left|].
        apply in_app_or in H as [H|[<-|[]]]; [now left|].
        right. exists l, b'. split; [now left | exact E].
      * right. exists line, b. split; [now right | exact Hr].
    + intros [H|(line & b & [<-|Hl] & Hr)].
      * left. destruct (parse_line P l) as [n|k' b']; [exact H|].
        destruct (dict_mem k' tasks); [exact H|].
        apply in_or_app. now left.
      * left. rewrite Hr. unfold dict_mem.
        destruct (dict_get k tasks) eqn:E; cbn [is_some].
        -- apply Decidable.not_not; [|intros N; apply dict_get_None in N;
             congruence].
           destruct (in_dec String.string_dec k (dict_keys tasks));
             [now left | now right].
        -- apply in_or_app. right. now left.
      * right. now exists line, b.
Qed.

(** X3: the registry never holds a key twice; it holds a key exactly
    when some line resolves to it; and the branch type it holds for a
    key is the one of the first line that resolves to that key. *)
Theorem registry_first_line (P : string) (lines : list string) :
  regex_literal P = true ->
  NoDup (dict_keys (parse_lines P lines))
  /\ (forall k,
        In k (dict_keys (parse_lines P lines))
        <-> exists line b, In line lines /\ parse_line P line = Resolved k b)
  /\ (forall before line after k b,
        lines = (before ++ line :: after)%list ->
        (forall l b', In l before -> parse_line P l <> Resolved k b') ->
        parse_line P line = Resolved k b ->
        dict_get k (parse_lines P lines) = Some b).
Proof.
  intros _. split; [apply parse_from_nodup; constructor|]. split.
  - intros k. unfold parse_lines. rewrite parse_from_keys.
    cbn [dict_keys map In]. tauto.
  - intros before line after k b -> Hb Hl.
    rewrite parse_lines_app.
    assert (N : dict_get k (parse_lines P before) = None).
    { apply dict_get_None. unfold parse_lines. rewrite parse_from_keys.
      intros [[]|(l & b' & Hin & Hr)]. exact (Hb l b' Hin Hr). }
    unfold parse_from. cbn [fold_left]. fold (parse_from P
      (record (parse_lines P before) (parse_line P line)) after).
    apply parse_from_keeps. rewrite Hl. cbn [record]. unfold dict_mem.
    rewrite N. cbn [is_some]. apply dict_get_set_same.
Qed.

(** the theorem at a log in which the second line is the first to name
    WEBDEV-7 *)
Lemma registry_first_line_witness :
  dict_get "WEBDEV-7"
    (parse_lines "WEBDEV"
       ["1a2b3c4 Merge branch 'bugfix/WEBDEV-42' into develop";
        "5d6e7f8 Merge branch 'hotfix/WEBDEV-7' into develop";
        "9a9b9c9 Merge branch 'feature/WEBDEV-7-again' into develop"])
  = Some BUGFIX.
Proof.
  refine (proj2 (proj2 (registry_first_line "WEBDEV" _ eq_refl))
            ["1a2b3c4 Merge branch 'bugfix/WEBDEV-42' into develop"]
            "5d6e7f8 Merge branch 'hotfix/WEBDEV-7' into develop"
            ["9a9b9c9 Merge branch 'feature/WEBDEV-7-again' into develop"]
            "WEBDEV-7" BUGFIX eq_refl _ _).
  - intros l b' [<-|[]]. vm_compute. discriminate.
  - vm_compute. reflexivity.
Defined.

(** *** A prefix without upper-case letters *)

Lemma parse_task_lower_prefix (P tp tk : string) :
  lower P = P -> exists n, parse_task P tp tk = Skipped n.
Proof.
  intros L. unfold parse_task.
  destruct (startswith (P ++ "-") tk) eqn:E; cbn [negb]; [|now exists 4].
  rewrite (proj2 (guard_fires P tk E) L). now exists 5.
Qed.

Lemma parse_line_lower_prefix (P line : string) :
  lower P = P -> exists n, parse_line P line = Skipped n.
Proof.
  intros L. unfold parse_line. cbv zeta.
  destruct (_ || _ || _); [now exists 1|].
  destruct (search_merge_branch (strip line)) as [full|]; [|now exists 2].
  unfold parse_branch.
  destruct (negb (contains "/" full)); [now exists 3|].
  destruct (split1 "/" full) as [|tp [|tk [|x t]]]; try (now exists 3).
  now apply parse_task_lower_prefix.
Qed.

(** X4: when the issue prefix has no upper-case letter (the empty
    prefix included), no line ever makes a registry entry, so every run
    ends as a zero-issue run. *)
Theorem lower_case_prefix_records_nothing (c : config)
  (merge_lines : list string) (search_issues : tracker) :
  regex_literal (ISSUE_PREFIX c) = true ->
  lower (ISSUE_PREFIX c) = ISSUE_PREFIX c ->
  parse_lines (ISSUE_PREFIX c) merge_lines = []
  /\ release_notes_md (run c merge_lines search_issues) = None
  /\ queries (run c merge_lines search_issues) = []
  /\ how (run c merge_lines search_issues) = Exit 0.
Proof.
  intros _ L.
  assert (E : parse_lines (ISSUE_PREFIX c) merge_lines = []).
  { unfold parse_lines, parse_from.
    induction merge_lines as [|l lines IH]; [reflexivity|].
    cbn [fold_left].
    destruct (parse_line_lower_prefix _ l L) as [n ->]. exact IH. }
  split; [exact E|]. unfold run. rewrite E. now repeat split.
Qed.

(** the theorem at the prefix webdev and a log of webdev branches *)
Lemma lower_case_prefix_records_nothing_witness :
  parse_lines "webdev"
    ["1a2b3c4 Merge branch 'bugfix/webdev-42' into develop";
     "5d6e7f8 Merge branch 'feature/webdev-7' into develop"]
  = [].
Proof.
  exact (proj1 (lower_case_prefix_records_nothing
                  {| RELEASE_VERSION := "1.2.6"; DEVELOP_VERSION := "1.3.0";
                     RELEASE_DATE := "04.11.2026"; ISSUE_PREFIX := "webdev" |}
                  _ (Some (fun _ _ => inr [])) eq_refl eq_refl)).
Defined.

End MoreParse.


(** ** Further properties: the groups *)

Module MoreGroups.
Import PyStr PyStrFacts Builder BuilderSpec BuilderGroups MoreSpec.

Lemma group_name_injective (a b : BranchType) :
  group_name a = group_name b -> a = b.
Proof.
  destruct a, b; intros H; try reflexivity; vm_compute in H;
    discriminate H.
Qed.

Lemma first_seen_In (l : list string) (y : string) :
  In y (first_seen l) <-> In y l.
Proof.
  induction l as [|x l IH]; cbn [first_seen In]; [tauto|].
  rewrite filter_In, IH.
  destruct (String.eqb_spec y x) as [->|n]; cbn [negb].
  - split; [intros [H|[_ H]]; [now left | discriminate] | now left].
  - split; [intros [H|[H _]]; [now left | now right]|].
    intros [H|H]; [now left | right; now split].
Qed.

Lemma first_seen_nodup (l : list string) : NoDup (first_seen l).
Proof.
  induction l as [|x l IH]; cbn [first_seen]; constructor.
  - rewrite filter_In. intros [_ H]. now rewrite String.eqb_refl in H.
  - now apply NoDup_filter.
Qed.

Lemma dict_append_grouped (n k : string) (d : dict (list string)) :
  Permutation (grouped_keys (dict_append n k d)) (k :: grouped_keys d).
Proof.
  unfold grouped_keys. induction d as [|[n0 l] d IH];
    cbn [dict_append map snd concat].
  - apply Permutation_refl.
  - destruct (String.eqb n0 n); cbn [map snd concat].
    + rewrite <- List.app_assoc. cbn [List.app].
      apply Permutation_sym, Permutation_middle.
    + eapply perm_trans; [apply Permutation_app_head, IH|].
      apply Permutation_sym, Permutation_middle.
Qed.

Lemma make_group_from_grouped (tasks : dict BranchType)
  (groups : dict (list string)) :
  Permutation (grouped_keys (make_group_from groups tasks))
    (grouped_keys groups ++ dict_keys tasks).
Proof.
  revert groups. unfold make_group_from, dict_keys.
  induction tasks as [|[k b] tasks IH]; intros groups; cbn [fold_left map fst].
  - rewrite app_nil_r. apply Permutation_refl.
  - eapply perm_trans; [apply IH|]. cbn [fst snd].
    eapply perm_trans;
      [apply Permutation_app_tail, dict_append_grouped|].
    cbn [List.app]. apply Permutation_middle.
Qed.

Lemma dict_append_in_group (n k : string) (d : dict (list string))
  (n' x : string) :
  in_group (dict_append n k d) n' x
  <-> (n' = n /\ x = k) \/ in_group d n' x.
Proof.
  unfold in_group. induction d as [|[n0 l] d IH]; cbn [dict_append].
  - split.
    + intros (keys & [[= <- <-]|[]] & [<-|[]]). now left.
    + intros [[-> ->]|(keys & [] & _)]. exists [k]. split; now left.
  - destruct (String.eqb_spec n0 n) as [->|ne].
    + split.
      * intros (keys & [[= <- <-]|Hin] & Hx).
        -- apply in_app_or in Hx as [Hx|[<-|[]]]; [right | now left].
           exists l. split; [now left | exact Hx].
        -- right. exists keys. split; [now right | exact Hx].
      * intros [[-> ->]|(keys & [[= <- <-]|Hin] & Hx)].
        -- exists (l ++ [k])%list. split; [now left|].
           apply in_or_app. right. now left.
        -- exists (l ++ [k])%list. split; [now left|].
           apply in_or_app. now left.
        -- exists keys. split; [now right | exact Hx].
    + split.
      * intros (keys & [[= <- <-]|Hin] & Hx).
        -- right. exists l. split; [now left | exact Hx].
        -- destruct (proj1 IH) as [H|(keys' & H1 & H2)];
             [now exists keys | now left |].
           right. exists keys'. split; [now right | exact H2].
      * intros [H|(keys & [[= <- <-]|Hin] & Hx)].
        -- destruct (proj2 IH (or_introl H)) as (keys' & H1 & H2).
           exists keys'. split; [now right | exact H2].
        -- exists l. split; [now left | exact Hx].
        -- destruct (proj2 IH) as (keys' & H1 & H2).
           { right. now exists keys. }
           exists keys'. split; [now right | exact H2].
Qed.

Lemma make_group_from_in_group (tasks : dict BranchType)
  (groups : dict (list string)) (n x : string) :
  in_group (make_group_from groups tasks) n x
  <-> in_group groups n x
      \/ exists b, In (x, b) tasks /\ group_name b = n.
Proof.
  revert groups. unfold make_group_from.
  induction tasks as [|[k b] tasks IH]; intros groups; cbn [fold_left].
  - split; [now left | intros [H|(b & [] & _)]; exact H].
  - rewrite IH, dict_append_in_group. cbn [fst snd]. split.
    + intros [[[-> ->]|H]|(b' & Hin & Hn)].
      * right. exists b. split; [now left | reflexivity].
      * now left.
      * right. exists b'. split; [now right | exact Hn].
    + intros [H|(b' & [[= <- <-]|Hin] & Hn)].
      * left. now right.
      * left. left. now split.
      * right. now exists b'.
Qed.

(** X5: grouping is a partition of the registry: the group names are
    distinct, one per branch type; the keys listed in the groups are the
    keys of the registry, each as often as the registry has it; and a
    key is listed in a group exactly when the registry holds it with the
    branch type of that group. *)
Theorem groups_partition (tasks : dict BranchType) :
  (forall a b, group_name a = group_name b -> a = b)
  /\ NoDup (map fst (make_group tasks))
  /\ Permutation (grouped_keys (make_group tasks)) (dict_keys tasks)
  /\ (NoDup (dict_keys tasks) -> NoDup (grouped_keys (make_group tasks)))
  /\ (forall n k,
        in_group (make_group tasks) n k
        <-> exists b, In (k, b) tasks /\ group_name b = n).
Proof.
  assert (P : Permutation (grouped_keys (make_group tasks)) (dict_keys tasks)).
  { change (make_group tasks) with (make_group_from [] tasks).
    apply (make_group_from_grouped tasks []). }
  split; [exact group_name_injective|].
  split; [rewrite keys_make_group; apply first_seen_nodup|].
  split; [exact P|]. split.
  - intros H. eapply Permutation_NoDup; [apply Permutation_sym, P | exact H].
  - intros n k. change (make_group tasks) with (make_group_from [] tasks).
    rewrite make_group_from_in_group. split; [|now right].
    intros [(keys & [] & _)|H]. exact H.
Qed.

End MoreGroups.


(** ** Further properties: tracker records and the run *)

Module MoreRender.
Import PyStr PyStrFacts Builder BuilderSpec BuilderParse BuilderGroups
  BuilderSort MoreSpec MoreParse MoreGroups.

Lemma dict_get_set {V} (k k' : string) (v : V) (d : dict V) :
  dict_get k (dict_set k' v d)
  = if String.eqb k' k then Some v else dict_get k d.
Proof.
  destruct (String.eqb_spec k' k) as [->|n].
  - apply dict_get_set_same.
  - now apply dict_get_set_other.
Qed.

(** the records by key: of several issues with one key the last stays *)
Lemma found_get (issues : list Issue) (d : dict (option Issue)) (k : string) :
  dict_get k (fold_left (fun d i => dict_set (key i) (Some i) d) issues d)
  = match last_with_key k issues with
    | Some j => Some (Some j)
    | None => dict_get k d
    end.
Proof.
  revert d. induction issues as [|i issues IH]; intros d; [reflexivity|].
  cbn [fold_left last_with_key]. rewrite IH.
  destruct (last_with_key k issues); [reflexivity|].
  rewrite dict_get_set. now destruct (String.eqb (key i) k).
Qed.

(** the stubs: a key that has no record gets [None] *)
Lemma stubs_get (base_keys : list string) (d : dict (option Issue))
  (k : string) :
  dict_get k
    (fold_left (fun d k => if dict_mem k d then d else dict_set k None d)
       base_keys d)
  = match dict_get k d with
    | Some v => Some v
    | None => if in_tuple k base_keys then Some None else None
    end.
Proof.
  revert d. induction base_keys as [|k0 keys IH]; intros d.
  - cbn. now destruct (dict_get k d).
  - cbn [fold_left in_tuple existsb]. rewrite IH. unfold dict_mem.
    destruct (dict_get k0 d) as [v0|] eqn:E0; cbn [is_some].
    + destruct (dict_get k d) as [v|] eqn:E; [reflexivity|].
      destruct (String.eqb_spec k k0) as [->|n]; [congruence | reflexivity].
    + rewrite dict_get_set.
      rewrite (String.eqb_sym k0 k).
      destruct (String.eqb_spec k k0) as [->|n].
      * now rewrite E0.
      * now destruct (dict_get k d).
Qed.

Lemma issue_data_get (issues : list Issue) (base_keys : list string)
  (k : string) :
  dict_get k (build_issue_data issues base_keys)
  = match last_with_key k issues with
    | Some j => Some (Some j)
    | None => if in_tuple k base_keys then Some None else None
    end.
Proof.
  unfold build_issue_data. cbv zeta. rewrite stubs_get, found_get.
  now destruct (last_with_key k issues).
Qed.

Lemma last_with_key_key (k : string) (issues : list Issue) (j : Issue) :
  last_with_key k issues = Some j -> key j = k /\ In j issues.
Proof.
  induction issues as [|i issues IH]; cbn [last_with_key]; [discriminate|].
  destruct (last_with_key k issues) as [j'|].
  - intros [= <-]. destruct (IH eq_refl) as [H1 H2]. split; [exact H1|].
    now right.
  - destruct (String.eqb_spec (key i) k) as [e|n]; [|discriminate].
    intros [= <-]. split; [exact e | now left].
Qed.

Lemma bullet_base_key (issues : list Issue) (base_keys : list string)
  (k : string) :
  In k base_keys ->
  bullet (build_issue_data issues base_keys) k
  = match last_with_key k issues with
    | Some j =>
        Some ("  + " ++ strip (summary j) ++ " (задача " ++ k ++ ")["
              ++ status j ++ "]")
    | None =>
        Some ("  + [Название не найдено] (задача " ++ k ++ ")[[Todo]]")
    end.
Proof.
  intros H. unfold bullet. rewrite issue_data_get.
  destruct (last_with_key k issues) as [j|]; [reflexivity|].
  apply in_tuple_In in H. now rewrite H.
Qed.

(** X6: every base key has its bullet.  When the tracker returned
    issues with that key, the bullet shows the stripped summary and the
    status of the last of them (an issue with that very key, from the
    tracker's answer); when it returned none, the bullet shows the two
    placeholders. *)
Theorem bullet_of_base_key (issues : list Issue) (base_keys : list string)
  (k : string) :
  In k base_keys ->
  bullet (build_issue_data issues base_keys) k
  = match last_with_key k issues with
    | Some j =>
        Some ("  + " ++ strip (summary j) ++ " (задача " ++ k ++ ")["
              ++ status j ++ "]")
    | None =>
        Some ("  + [Название не найдено] (задача " ++ k ++ ")[[Todo]]")
    end
  /\ (forall j, last_with_key k issues = Some j -> key j = k /\ In j issues)
  /\ (last_with_key k issues = None <->
      forall j, In j issues -> key j <> k).
Proof.
  intros H. split; [now apply bullet_base_key|].
  split; [apply last_with_key_key|].
  clear H. induction issues as [|i issues IH]; cbn [last_with_key].
  - split; [intros _ j [] | reflexivity].
  - destruct (last_with_key k issues) as [j'|] eqn:E.
    + split; [discriminate|]. intros N. exfalso.
      destruct (last_with_key_key k issues j' E) as [Hk Hin].
      exact (N j' (or_intror Hin) Hk).
    + destruct (String.eqb_spec (key i) k) as [e|n].
      * split; [discriminate|]. intros N. exfalso.
        exact (N i (or_introl eq_refl) e).
      * split; [|reflexivity]. intros _ j [<-|Hj]; [exact n|].
        now apply (proj1 IH eq_refl).
Qed.

(** the theorem at a tracker answer that lacks one of two keys *)
Lemma bullet_of_base_key_witness :
  bullet
    (build_issue_data
       [{| key := "WEBDEV-7"; summary := " Fix login "; status := "Done" |}]
       ["WEBDEV-7"; "WEBDEV-99"])
    "WEBDEV-99"
  = Some "  + [Название не найдено] (задача WEBDEV-99)[[Todo]]".
Proof.
  refine (proj1 (bullet_of_base_key _ ["WEBDEV-7"; "WEBDEV-99"] "WEBDEV-99" _)).
  right. left. reflexivity.
Defined.

(** *** The rendered groups and the run *)

Lemma bullets_text (issues : list Issue) (base_keys ks : list string) :
  (forall k, In k ks -> In k base_keys) ->
  bullets (build_issue_data issues base_keys) ks
  = Some (map (bullet_text issues) ks).
Proof.
  induction ks as [|k ks IH]; intros H; cbn [bullets map]; [reflexivity|].
  rewrite IH by (intros x Hx; apply H; now right).
  rewrite (bullet_base_key issues base_keys k (H k (or_introl eq_refl))).
  unfold bullet_text. now destruct (last_with_key k issues).
Qed.

Lemma registry_sort_keys (P : string) (lines : list string) :
  has_char "-" P = false ->
  Forall short (dict_keys (parse_lines P lines)) ->
  forall k, In k (dict_keys (parse_lines P lines)) ->
    exists d, k = P ++ "-" ++ d /\ d <> "" /\ all_digits d = true
              /\ sort_key k = Some (digits_value 0 d).
Proof.
  intros HP Hs k Hk. apply (sort_key_shape _ _ HP).
  - exact (parse_lines_shape _ _ _ Hk).
  - exact (proj1 (Forall_forall _ _) Hs k Hk).
Qed.

Lemma render_group_sorted (P : string) (lines : list string)
  (issues : list Issue) (name : string) (keys : list string) :
  has_char "-" P = false ->
  Forall short (dict_keys (parse_lines P lines)) ->
  In (name, keys) (make_group (parse_lines P lines)) ->
  exists sk,
    sorted_keys keys = Some sk /\ Permutation keys sk
    /\ StronglySorted key_le sk
    /\ render_group
         (build_issue_data issues (dict_keys (parse_lines P lines)))
         (name, keys)
       = Some (header_line name
               :: List.app (map (bullet_text issues) sk) [""]).
Proof.
  intros HP Hs Hg.
  assert (Hk : Forall (fun x => exists n, sort_key x = Some n) keys).
  { apply Forall_forall. intros x Hx.
    destruct (registry_sort_keys P lines HP Hs x
                (make_group_keys _ _ _ Hg Hx)) as (d & _ & _ & _ & Hd).
    now exists (digits_value 0 d). }
  destruct (sorted_keys_spec _ Hk) as (sk & Hsk & Hp & Ho).
  exists sk. repeat split; try assumption.
  cbn [render_group]. rewrite Hsk.
  rewrite bullets_text.
  - pose proof (make_group_nonempty (parse_lines P lines)) as Hne.
    pose proof (proj1 (Forall_forall _ _) Hne _ Hg) as Hn. cbn [snd] in Hn.
    destruct keys; [congruence | reflexivity].
  - intros k Hk'. apply (make_group_keys _ (name, keys) _ Hg).
    cbn [snd]. eapply Permutation_in; [apply Permutation_sym, Hp | exact Hk'].
Qed.

Lemma render_groups_total (issue_data : dict (option Issue))
  (groups : dict (list string)) :
  (forall g, In g groups -> exists ls, render_group issue_data g = Some ls) ->
  exists body, render_groups issue_data groups = Some body.
Proof.
  induction groups as [|g groups IH]; intros H; cbn [render_groups];
    [now exists []|].
  destruct (H g (or_introl eq_refl)) as [ls ->].
  destruct IH as [body ->]; [intros x Hx; apply H; now right|].
  now eexists.
Qed.

Lemma output_lines_total (c : config) (lines : list string)
  (issues : list Issue) :
  has_char "-" (ISSUE_PREFIX c) = false ->
  Forall short (dict_keys (parse_lines (ISSUE_PREFIX c) lines)) ->
  exists out,
    output_lines c
      (build_issue_data issues
         (dict_keys (parse_lines (ISSUE_PREFIX c) lines)))
      (make_group (parse_lines (ISSUE_PREFIX c) lines))
    = Some out.
Proof.
  intros HP Hs. unfold output_lines.
  destruct (render_groups_total
              (build_issue_data issues
                 (dict_keys (parse_lines (ISSUE_PREFIX c) lines)))
              (make_group (parse_lines (ISSUE_PREFIX c) lines)))
    as [body ->]; [|now eexists].
  intros [name keys] Hg.
  destruct (render_group_sorted _ _ issues _ _ HP Hs Hg)
    as (sk & _ & _ & _ & ->).
  now eexists.
Qed.

(** X7: with an issue prefix without a dash, at least one base key
    recorded and no key longer than the interpreter converts: when the
    tracker client cannot be set up, the run has printed its request
    line, asks nothing, writes no file and ends with the uncaught
    exception.  Otherwise it asks the tracker exactly once, for all the
    base keys in registry order and as many results as there are keys;
    when that query fails, the run prints the error, writes no file and
    exits with status 1; when it answers, the run writes the document,
    prints the same text and exits with status 0. *)
Theorem run_outcome (c : config) (merge_lines : list string)
  (jira : tracker) :
  regex_literal (ISSUE_PREFIX c) = true ->
  has_char "-" (ISSUE_PREFIX c) = false ->
  dict_keys (parse_lines (ISSUE_PREFIX c) merge_lines) <> [] ->
  Forall short (dict_keys (parse_lines (ISSUE_PREFIX c) merge_lines)) ->
  match jira with
  | None =>
      run c merge_lines jira
      = {| stdout :=
             [asking (List.length
                        (dict_keys (parse_lines (ISSUE_PREFIX c) merge_lines)))];
           release_notes_md := None;
           queries := [];
           how := Uncaught |}
  | Some search_issues =>
      match
        search_issues
          (jql_of (dict_keys (parse_lines (ISSUE_PREFIX c) merge_lines)))
          (List.length (dict_keys (parse_lines (ISSUE_PREFIX c) merge_lines)))
      with
      | inl e =>
          run c merge_lines jira
          = {| stdout :=
                 [asking (List.length
                            (dict_keys
                               (parse_lines (ISSUE_PREFIX c) merge_lines)));
                  "❌ Ошибка при запросе к Jira: " ++ e];
               release_notes_md := None;
               queries :=
                 [jql_of
                    (dict_keys (parse_lines (ISSUE_PREFIX c) merge_lines))];
               how := Exit 1 |}
      | inr issues =>
          exists doc,
            run c merge_lines jira
            = {| stdout :=
                   [asking (List.length
                              (dict_keys
                                 (parse_lines (ISSUE_PREFIX c) merge_lines)));
                    doc];
                 release_notes_md := Some doc;
                 queries :=
                   [jql_of
                      (dict_keys (parse_lines (ISSUE_PREFIX c) merge_lines))];
                 how := Exit 0 |}
      end
  end.
Proof.
  intros _ HP Hne Hs. unfold run. cbv zeta.
  fold (jql_of (dict_keys (parse_lines (ISSUE_PREFIX c) merge_lines))).
  fold (asking (List.length
                  (dict_keys (parse_lines (ISSUE_PREFIX c) merge_lines)))).
  pose proof (fun issues => output_lines_total c merge_lines issues HP Hs) as T.
  destruct (dict_keys (parse_lines (ISSUE_PREFIX c) merge_lines))
    as [|k0 keys] eqn:K; [congruence|].
  destruct jira as [search_issues|]; [|reflexivity].
  destruct (search_issues (jql_of (k0 :: keys)) (List.length (k0 :: keys)))
    as [e|issues]; [reflexivity|].
  destruct (T issues) as [out ->]. now eexists.
Qed.

(** the theorem at a log with one issue and a tracker whose query fails *)
Lemma run_outcome_witness :
  run {| RELEASE_VERSION := "1.2.6"; DEVELOP_VERSION := "1.3.0";
         RELEASE_DATE := "04.11.2026"; ISSUE_PREFIX := "WEBDEV" |}
    ["1a2b3c4 Merge branch 'bugfix/WEBDEV-42' into develop"]
    (Some (fun _ _ => inl "HTTP 401"))
  = {| stdout := ["Запрашиваю 1 задач из Jira...";
                  "❌ Ошибка при запросе к Jira: HTTP 401"];
       release_notes_md := None;
       queries := ["issueKey IN (WEBDEV-42)"];
       how := Exit 1 |}.
Proof.
  refine (run_outcome
            {| RELEASE_VERSION := "1.2.6"; DEVELOP_VERSION := "1.3.0";
               RELEASE_DATE := "04.11.2026"; ISSUE_PREFIX := "WEBDEV" |}
            ["1a2b3c4 Merge branch 'bugfix/WEBDEV-42' into develop"]
            (Some (fun _ _ => inl "HTTP 401")) eq_refl eq_refl _ _).
  - vm_compute. discriminate.
  - vm_compute. repeat constructor. intros H. discriminate H.
Defined.

(** X14: with an issue prefix without a dash and no key longer than
    the interpreter converts, every key of the registry is the prefix,
    a dash and digits and its sort key is the number the digits write;
    every group is rendered as its header line, then one bullet per key
    in ascending order of that number (the bullet of X6, which shows
    the key), then an empty line. *)
Theorem sorted_within_group (P : string) (lines : list string)
  (issues : list Issue) :
  regex_literal P = true -> has_char "-" P = false ->
  Forall short (dict_keys (parse_lines P lines)) ->
  (forall k, In k (dict_keys (parse_lines P lines)) ->
     exists d, k = P ++ "-" ++ d /\ d <> "" /\ all_digits d = true
               /\ sort_key k = Some (digits_value 0 d))
  /\ (forall name keys,
        In (name, keys) (make_group (parse_lines P lines)) ->
        exists sk,
          sorted_keys keys = Some sk /\ Permutation keys sk
          /\ StronglySorted key_le sk
          /\ render_group
               (build_issue_data issues (dict_keys (parse_lines P lines)))
               (name, keys)
             = Some (header_line name
                     :: List.app (map (bullet_text issues) sk) [""])).
Proof.
  intros _ HP Hs. split.
  - now apply registry_sort_keys.
  - intros name keys Hg. now apply render_group_sorted.
Qed.

(** the theorem at a log with three features and a tracker answer that
    knows none of them *)
Lemma sorted_within_group_witness :
  render_group
    (build_issue_data []
       (dict_keys
          (parse_lines "WEBDEV"
             ["1a2b3c4 Merge branch 'feature/WEBDEV-100' into develop";
              "5d6e7f8 Merge branch 'feature/WEBDEV-2-v2' into develop";
              "9a9b9c9 Merge branch 'feature/WEBDEV-30' into develop"])))
    (group_name FEATURE, ["WEBDEV-100"; "WEBDEV-2"; "WEBDEV-30"])
  = Some ["- **Функциональность (`feature`):**";
          "  + [Название не найдено] (задача WEBDEV-2)[[Todo]]";
          "  + [Название не найдено] (задача WEBDEV-30)[[Todo]]";
          "  + [Название не найдено] (задача WEBDEV-100)[[Todo]]";
          ""].
Proof.
  destruct (proj2 (sorted_within_group "WEBDEV"
              ["1a2b3c4 Merge branch 'feature/WEBDEV-100' into develop";
               "5d6e7f8 Merge branch 'feature/WEBDEV-2-v2' into develop";
               "9a9b9c9 Merge branch 'feature/WEBDEV-30' into develop"]
              [] eq_refl eq_refl
              ltac:(vm_compute; repeat constructor; intros H; discriminate H))
            (group_name FEATURE) ["WEBDEV-100"; "WEBDEV-2"; "WEBDEV-30"])
    as (sk & H1 & _ & _ & H4).
  - vm_compute. left. reflexivity.
  - rewrite H4. assert (E : sk = ["WEBDEV-2"; "WEBDEV-30"; "WEBDEV-100"]).
    { vm_compute in H1. now injection H1 as <-. }
    rewrite E. vm_compute. reflexivity.
Defined.

End MoreRender.


(** ** Further properties: the sort *)

Module MoreSort.
Import PyStr PyStrFacts Builder BuilderSpec BuilderSort MoreSpec.

Lemma keyed_None (l : list string) :
  keyed l = None <-> exists x, In x l /\ sort_key x = None.
Proof.
  induction l as [|x l IH]; cbn [keyed].
  - split; [discriminate | intros (x & [] & _)].
  - destruct (sort_key x) as [n|] eqn:E.
    + destruct (keyed l) as [r|].
      * split; [discriminate|]. intros (y & [<-|Hy] & Hn); [congruence|].
        exfalso. assert (N : Some r = None) by (apply IH; now exists y).
        discriminate N.
      * split; [|reflexivity]. intros _.
        destruct (proj1 IH eq_refl) as (y & Hy & Hn).
        exists y. split; [now right | exact Hn].
    + split; [|reflexivity]. intros _. exists x. split; [now left | exact E].
Qed.

(** an element joins the sorted elements in front of those of its key *)
Lemma insert_keyed_filter (n : Z) (a : Z * string) (l : list (Z * string)) :
  StronglySorted fst_le l ->
  filter (fun p => Z.eqb (fst p) n) (insert_keyed a l)
  = filter (fun p => Z.eqb (fst p) n) (a :: l).
Proof.
  induction 1 as [|b l Hs IH Hb]; cbn [insert_keyed]; [reflexivity|].
  destruct (Z.leb_spec (fst a) (fst b)) as [Hle|Hgt]; [reflexivity|].
  cbn [filter] in IH |- *. rewrite IH.
  destruct (Z.eqb_spec (fst a) n) as [Ea|Na]; [|reflexivity].
  destruct (Z.eqb_spec (fst b) n) as [Eb|Nb]; [lia | reflexivity].
Qed.

Lemma sort_keyed_filter (n : Z) (l : list (Z * string)) :
  filter (fun p => Z.eqb (fst p) n) (sort_keyed l)
  = filter (fun p => Z.eqb (fst p) n) l.
Proof.
  induction l as [|a l IH]; [reflexivity|].
  cbn [sort_keyed]. rewrite insert_keyed_filter by apply sort_keyed_sorted.
  cbn [filter]. now rewrite IH.
Qed.

Lemma filter_map_snd (n : Z) (kl : list (Z * string)) :
  Forall (fun p => sort_key (snd p) = Some (fst p)) kl ->
  filter (has_key n) (map snd kl)
  = map snd (filter (fun p => Z.eqb (fst p) n) kl).
Proof.
  induction 1 as [|p kl Hp Hkl IH]; [reflexivity|].
  cbn [map filter]. unfold has_key at 1. rewrite Hp, IH.
  now destruct (Z.eqb (fst p) n).
Qed.

(** X8: sorting a group fails exactly when one of its keys has no
    numeric sort key; when it succeeds, keys with the same number keep
    the order they had in the group (so WEBDEV-7 and WEBDEV-007 stay in
    log order). *)
Theorem sorted_keys_stable (keys : list string) :
  (sorted_keys keys = None <-> exists x, In x keys /\ sort_key x = None)
  /\ (forall sk n,
        sorted_keys keys = Some sk ->
        filter (has_key n) sk = filter (has_key n) keys).
Proof.
  unfold sorted_keys. split.
  - rewrite <- keyed_None. destruct (keyed keys); cbn [option_map];
      split; congruence.
  - intros sk n. destruct (keyed keys) as [kl|] eqn:K; [|discriminate].
    cbn [option_map]. intros [= <-].
    destruct (keyed_spec _ _ K) as [Hm Hf].
    rewrite filter_map_snd.
    + rewrite sort_keyed_filter, <- filter_map_snd by exact Hf.
      now rewrite Hm.
    + eapply Permutation_Forall; [apply sort_keyed_perm | exact Hf].
Qed.

(** *** A dash inside the prefix *)

(** the first piece of a split does not see what follows the first
    separator *)
Lemma split_head (c : ascii) (x y : string) :
  hd "" (split c (x ++ String c y)) = hd "" (split c x).
Proof.
  induction x as [|d x IH]; cbn [append split].
  - now rewrite Ascii.eqb_refl.
  - destruct (Ascii.eqb d c); [reflexivity|].
    destruct (split c (x ++ String c y)) as [|h t],
             (split c x) as [|h' t']; cbn [hd] in IH |- *;
      now rewrite ?IH.
Qed.

Lemma split_nonempty (c : ascii) (x : string) : split c x <> [].
Proof.
  destruct x as [|d x]; cbn [split]; [discriminate|].
  destruct (Ascii.eqb d c); [discriminate|].
  now destruct (split c x).
Qed.

Lemma nth1_split (c : ascii) (a rest : string) :
  has_char c a = false ->
  nth_error (split c (a ++ String c rest)) 1 = Some (hd "" (split c rest)).
Proof.
  intros H. rewrite (split_first _ _ _ H). cbn [nth_error].
  pose proof (split_nonempty c rest). now destruct (split c rest).
Qed.

(** X9: when the issue prefix contains a dash, the sort key of a base
    key is read from the prefix, not from the digits: all base keys of
    that prefix get the same sort key (or all of them none, which makes
    the rendering raise). *)
Theorem dashed_prefix_sort_key (P d1 d2 : string) :
  has_char "-" P = true ->
  sort_key (P ++ "-" ++ d1) = sort_key (P ++ "-" ++ d2).
Proof.
  intros H. destruct (has_char_split _ _ H) as (a & b & -> & Ha).
  unfold sort_key.
  rewrite !app_assoc. change (String "-" b ++ "-" ++ d1)
    with (String "-" (b ++ String "-" d1)).
  change (String "-" b ++ "-" ++ d2) with (String "-" (b ++ String "-" d2)).
  rewrite !(nth1_split _ _ _ Ha), !split_head. reflexivity.
Qed.

(** the theorem at the prefix WEB-DEV, where the piece read is DEV *)
Lemma dashed_prefix_sort_key_witness :
  sort_key ("WEB-DEV" ++ "-" ++ "42") = sort_key ("WEB-DEV" ++ "-" ++ "7")
  /\ sort_key "WEB-DEV-42" = None.
Proof.
  split; [exact (dashed_prefix_sort_key "WEB-DEV" "42" "7" eq_refl)|].
  reflexivity.
Defined.

End MoreSort.


(** ** Further properties: the two scripts together *)

Module MorePipeline.
Import PyStr PyStrFacts Extractor ExtractorSpec ExtractorFacts ExtractorRun
  Builder BuilderSpec BuilderParse BuilderGroups BuilderInput MoreSpec
  MoreParse.

(** *** Filtering twice *)

Lemma filter_implied {A} (f g : A -> bool) (l : list A) :
  (forall x, f x = true -> g x = true) ->
  filter g (filter f l) = filter f l.
Proof.
  intros H. rewrite filter_filter. apply filter_ext_in. intros x _.
  destruct (f x) eqn:E; [now rewrite (H x E) | reflexivity].
Qed.

(** X10: filtering once is enough: filtering the kept lines again, with
    the same prefix or with no prefix at all, keeps all of them; two
    filters give the same lines in either order; and the output is never
    longer than the input. *)
Theorem extract_lines_composes (lines : list string) (P Q : string) :
  regex_literal P = true -> regex_literal Q = true ->
  extract_lines (extract_lines lines P) P = extract_lines lines P
  /\ extract_lines (extract_lines lines P) "" = extract_lines lines P
  /\ extract_lines (extract_lines lines P) Q
     = extract_lines (extract_lines lines Q) P
  /\ List.length (extract_lines lines P) <= List.length lines.
Proof.
  intros _ _. unfold extract_lines. repeat split.
  - now apply filter_implied.
  - apply filter_implied. intros x. apply kept_has_message.
  - rewrite !filter_filter. apply filter_ext. intros x. apply andb_comm.
  - apply filter_length_le.
Qed.

(** the theorem at the prefixes WEBDEV and MOBILE *)
Lemma extract_lines_composes_witness :
  extract_lines
    (extract_lines
       ["1a2b3c4 Merge branch 'feature/WEBDEV-1' into develop";
        "0000000 Merge branch 'main' into develop"] "WEBDEV") ""
  = extract_lines
      ["1a2b3c4 Merge branch 'feature/WEBDEV-1' into develop";
       "0000000 Merge branch 'main' into develop"] "WEBDEV".
Proof.
  exact (proj1 (proj2 (extract_lines_composes _ "WEBDEV" "MOBILE"
                         eq_refl eq_refl))).
Defined.

(** *** What the Builder uses, the Extractor keeps *)

Lemma lstrip_suffix (s : string) : exists a, s = a ++ lstrip s.
Proof.
  induction s as [|c s [a IH]]; [now exists ""|].
  cbn [lstrip]. destruct (is_space c); [|now exists ""].
  exists (String c a). cbn. now rewrite <- IH.
Qed.

Lemma rstrip_prefix (s : string) : exists b, s = rstrip s ++ b.
Proof.
  induction s as [|c s [b IH]]; [now exists ""|].
  cbn [rstrip]. destruct (rstrip s) as [|d r] eqn:E.
  - destruct (is_space c).
    + now exists (String c s).
    + exists b. cbn. now rewrite IH at 1.
  - exists b. cbn. cbn in IH. now rewrite IH at 1.
Qed.

Lemma strip_inside (s : string) : exists a b, s = a ++ strip s ++ b.
Proof.
  destruct (lstrip_suffix s) as [a Ha].
  destruct (rstrip_prefix (lstrip s)) as [b Hb].
  exists a, b. unfold strip. now rewrite <- Hb.
Qed.

Lemma split1_inv (c : ascii) (s tp tk : string) :
  split1 c s = [tp; tk] -> s = tp ++ String c tk /\ has_char c tp = false.
Proof.
  revert tp. induction s as [|d s IH]; intros tp; cbn [split1];
    [discriminate|].
  destruct (Ascii.eqb_spec d c) as [->|n].
  - intros [= <- <-]. now split.
  - destruct (split1 c s) as [|h [|h2 [|x t]]] eqn:E; try discriminate.
    intros [= <- <-]. destruct (IH h eq_refl) as [-> Hh].
    split; [reflexivity|]. cbn [has_char].
    apply Ascii.eqb_neq in n. now rewrite n, Hh.
Qed.

Lemma resolved_is_kept (P line k : string) (b : BranchType) :
  parse_line P line = Resolved k b -> pattern_search P line = true.
Proof.
  intros H. destruct P as [|p0 P'].
  { destruct (parse_line_lower_prefix "" line eq_refl) as [n Hn].
    congruence. }
  set (P := String p0 P') in *.
  change (pattern_search P line) with (search_prefixed P line).
  apply search_prefixed_spec.
  revert H. unfold parse_line. cbv zeta.
  destruct (_ || _ || _); [discriminate|].
  destruct (search_merge_branch (strip line)) as [full|] eqn:S;
    [|discriminate].
  unfold parse_branch.
  destruct (negb (contains "/" full)); [discriminate|].
  destruct (split1 "/" full) as [|tp [|tk [|x t]]] eqn:Sp; try discriminate.
  unfold parse_task, startswith.
  destruct (strip_prefix (P ++ "-") tk) as [r|] eqn:St; cbn [is_some negb];
    [|discriminate].
  intros _.
  apply strip_prefix_inv in St.
  apply split1_inv in Sp as [-> Htp].
  destruct (search_merge_branch_sound _ _ S) as (pre & post & E & Hq & _).
  destruct (strip_inside line) as (a & z & Hl).
  unfold quote_free in Hq. rewrite has_char_app in Hq.
  apply orb_false_iff in Hq as [Hq1 Hq2].
  cbn [has_char] in Hq2. apply orb_false_iff in Hq2 as [_ Hq2].
  rewrite St, has_char_app in Hq2.
  apply orb_false_iff in Hq2 as [_ Hq2].
  exists (a ++ pre), "Merge branch '", tp, P, r, (post ++ z).
  repeat split; try assumption.
  rewrite Hl, E, St. rewrite !app_assoc. cbn [append].
  rewrite ?app_assoc. reflexivity.
Qed.

Lemma parse_from_filter (P : string) (f : string -> bool)
  (lines : list string) (tasks : dict BranchType) :
  (forall line k b, parse_line P line = Resolved k b -> f line = true) ->
  parse_from P tasks (filter f lines) = parse_from P tasks lines.
Proof.
  intros H. revert tasks. unfold parse_from.
  induction lines as [|l lines IH]; intros tasks; [reflexivity|].
  cbn [filter fold_left]. destruct (f l) eqn:E.
  - cbn [fold_left]. apply IH.
  - rewrite IH. destruct (parse_line P l) as [n|k b] eqn:R; [reflexivity|].
    rewrite (H _ _ _ R) in E. discriminate.
Qed.

(** *** Reading the written file *)

Lemma no_break_no_cr (s : string) : no_break s = true -> has_char CR s = false.
Proof.
  induction s as [|c s IH]; [reflexivity|].
  cbn [no_break has_char]. intros H. apply andb_true_iff in H as [Hc H].
  rewrite (IH H), orb_false_r.
  destruct (Ascii.eqb_spec c CR) as [->|n]; [discriminate Hc | reflexivity].
Qed.

Lemma no_break_no_lf (s : string) : no_break s = true -> has_char LF s = false.
Proof.
  induction s as [|c s IH]; [reflexivity|].
  cbn [no_break has_char]. intros H. apply andb_true_iff in H as [Hc H].
  rewrite (IH H), orb_false_r.
  destruct (Ascii.eqb_spec c LF) as [->|n]; [discriminate Hc | reflexivity].
Qed.

Lemma splitlines_line (f rest : string) :
  no_break f = true ->
  splitlines_from false (f ++ String LF rest)
  = f :: splitlines_from false rest.
Proof.
  induction f as [|c f IH]; cbn [no_break append splitlines_from]; intros H.
  - reflexivity.
  - apply andb_true_iff in H as [Hc H]. apply negb_true_iff in Hc.
    cbn [andb]. now rewrite Hc, (IH H).
Qed.

Lemma splitlines_last (f : string) :
  no_break f = true -> f <> "" -> splitlines_from false f = [f].
Proof.
  induction f as [|c f IH]; [congruence|].
  cbn [no_break splitlines_from]. intros H _.
  apply andb_true_iff in H as [Hc H]. apply negb_true_iff in Hc.
  cbn [andb]. rewrite Hc.
  destruct f as [|d f]; [reflexivity|].
  rewrite (IH H); [reflexivity | discriminate].
Qed.

Lemma splitlines_join (l : list string) :
  Forall (fun f => no_break f = true /\ f <> "") l ->
  splitlines (join (String LF "") l) = l.
Proof.
  unfold splitlines. induction 1 as [|f l [Hf Hne] Hl IH]; [reflexivity|].
  destruct l as [|g l].
  - now apply splitlines_last.
  - change (join (String LF "") (f :: g :: l))
      with (f ++ String LF (join (String LF "") (g :: l))).
    now rewrite (splitlines_line _ _ Hf), IH.
Qed.

Lemma kept_lines_read_back (lines : list string) (P : string) :
  Forall (fun l => no_break l = true) lines ->
  read_merge_lines (join (String LF "") (extract_lines lines P))
  = extract_lines lines P
  /\ parse_lines P (extract_lines lines P) = parse_lines P lines.
Proof.
  intros Hl. split.
  - assert (Hk : Forall (fun f => no_break f = true /\ f <> "")
                   (extract_lines lines P)).
    { apply Forall_forall. intros f Hf.
      apply extract_lines_In in Hf as [Hin Hs]. split.
      - exact (proj1 (Forall_forall _ _) Hl f Hin).
      - exact (search_any_nonempty _ (kept_has_message _ _ Hs)). }
    unfold read_merge_lines. rewrite universal_newlines_id.
    + now apply splitlines_join.
    + apply has_char_join; [reflexivity|].
      eapply Forall_impl; [|exact Hk].
      intros f [H _]. now apply no_break_no_cr.
  - unfold parse_lines, extract_lines. apply parse_from_filter.
    intros line k b. apply resolved_is_kept.
Qed.

(** X11: what the Builder reads from the file the Extractor wrote is
    the list of kept lines (for log lines without line boundaries, as
    the git source delivers them), and the registry the Builder builds
    from it is the registry it would build from the whole log: the
    Extractor drops no line the Builder would use. *)
Theorem builder_reads_extractor_output (lines : list string) (P : string) :
  regex_literal P = true ->
  Forall (fun l => no_break l = true) lines ->
  read_merge_lines (join (String LF "") (extract_lines lines P))
  = extract_lines lines P
  /\ parse_lines P (extract_lines lines P) = parse_lines P lines
  /\ parse_lines P
       (read_merge_lines (join (String LF "") (extract_lines lines P)))
     = parse_lines P lines.
Proof.
  intros _ Hl. destruct (kept_lines_read_back lines P Hl) as [B A].
  split; [exact B|]. split; [exact A|]. now rewrite B.
Qed.

(** the theorem at a log of three lines and the prefix WEBDEV *)
Lemma builder_reads_extractor_output_witness :
  parse_lines "WEBDEV"
    (read_merge_lines
       (join (String LF "")
          (extract_lines
             ["1a2b3c4 Merge branch 'bugfix/WEBDEV-42' into develop";
              "0000000 Merge branch 'main' into develop";
              "5d6e7f8 Merge branch 'feature/WEBDEV-7' into develop"]
             "WEBDEV")))
  = parse_lines "WEBDEV"
      ["1a2b3c4 Merge branch 'bugfix/WEBDEV-42' into develop";
       "0000000 Merge branch 'main' into develop";
       "5d6e7f8 Merge branch 'feature/WEBDEV-7' into develop"].
Proof.
  refine (proj2 (proj2 (builder_reads_extractor_output _ "WEBDEV" eq_refl _))).
  repeat constructor.
Defined.

(** *** From git to the registry *)

Lemma splitlines_no_break (skip_lf : bool) (s : string) :
  Forall (fun l => no_break l = true) (splitlines_from skip_lf s).
Proof.
  revert skip_lf. induction s as [|c s IH]; intros skip_lf;
    cbn [splitlines_from]; [constructor|].
  destruct (skip_lf && Ascii.eqb c LF); [apply IH|].
  destruct (is_linebreak c) eqn:E.
  - constructor; [reflexivity | apply IH].
  - specialize (IH false).
    destruct (splitlines_from false s) as [|h t].
    + constructor; [|constructor]. cbn [no_break]. now rewrite E.
    + apply Forall_cons_iff in IH as [Hh Ht].
      constructor; [|exact Ht]. cbn [no_break]. now rewrite E, Hh.
Qed.

(** X12: a run of the Extractor on the git source: no line that git
    delivers contains a line boundary, whatever git prints; the run
    writes its output file; and the Builder, reading that text with the
    same prefix, gets the kept lines and builds the registry of the
    whole log. *)
Theorem git_run_feeds_builder (a : args)
  (read : string -> option string) (git : list string -> option string)
  (lines : list string) :
  regex_literal (prefix a) = true ->
  from_file a = None \/ from_file a = Some "" ->
  ExtractorSource.line_source a read git = Some lines ->
  git (ExtractorSource.git_log_command (since a) (Z.of_nat (max a))) <> None
  /\ Forall (fun l => no_break l = true) lines
  /\ main a (Some lines)
     = Saved (resolved_output a)
         (join (String LF "") (extract_lines lines (prefix a)))
         (List.length (extract_lines lines (prefix a)))
  /\ read_merge_lines (join (String LF "") (extract_lines lines (prefix a)))
     = extract_lines lines (prefix a)
  /\ parse_lines (prefix a)
       (read_merge_lines
          (join (String LF "") (extract_lines lines (prefix a))))
     = parse_lines (prefix a) lines.
Proof.
  intros _ Hf Hs.
  assert (G : ExtractorSource.get_git_merge_commits git (since a)
                (Z.of_nat (max a)) = Some lines).
  { unfold ExtractorSource.line_source in Hs.
    destruct Hf as [Hf|Hf]; now rewrite Hf in Hs. }
  unfold ExtractorSource.get_git_merge_commits in G.
  destruct (git _) as [stdout|]; [|discriminate].
  injection G as <-.
  pose proof (splitlines_no_break false
                (universal_newlines stdout)) as Hn.
  fold (splitlines (universal_newlines stdout)) in Hn.
  destruct (kept_lines_read_back _ (prefix a) Hn) as [B A].
  split; [discriminate|]. split; [exact Hn|]. split.
  - unfold main. pose proof (resolved_output_nonempty a).
    destruct (resolved_output a); [congruence | reflexivity].
  - split; [exact B|]. now rewrite B.
Qed.

(** the theorem at a run with the default arguments and a git that
    prints two merges *)
Lemma git_run_feeds_builder_witness :
  let a := {| since := Some "1.2.5"; max := 500; prefix := "WEBDEV";
              from_file := None; output := None |} in
  let stdout :=
    "1a2b3c4 Merge branch 'bugfix/WEBDEV-42' into develop" ++ String LF ""
    ++ "0000000 Merge branch 'main' into develop" ++ String LF "" in
  parse_lines "WEBDEV"
    (read_merge_lines
       (join (String LF "")
          (extract_lines (splitlines (universal_newlines stdout)) "WEBDEV")))
  = parse_lines "WEBDEV" (splitlines (universal_newlines stdout)).
Proof.
  cbv zeta.
  refine (proj2 (proj2 (proj2 (proj2
            (git_run_feeds_builder
               {| since := Some "1.2.5"; max := 500; prefix := "WEBDEV";
                  from_file := None; output := None |}
               (fun _ => None)
               (fun _ => Some
                  ("1a2b3c4 Merge branch 'bugfix/WEBDEV-42' into develop"
                   ++ String LF ""
                   ++ "0000000 Merge branch 'main' into develop"
                   ++ String LF ""))
               _ eq_refl (or_introl eq_refl) eq_refl))))).
Defined.

(** *** From a file to the registry *)

Lemma parse_from_resolutions (P : string) (lines : list string)
  (tasks : dict BranchType) :
  parse_from P tasks lines
  = fold_left (fun t kb => record t (Resolved (fst kb) (snd kb)))
      (resolutions P lines) tasks.
Proof.
  revert tasks. unfold parse_from, resolutions.
  induction lines as [|l lines IH]; intros tasks; [reflexivity|].
  cbn [fold_left flat_map]. rewrite fold_left_app, IH.
  now destruct (parse_line P l).
Qed.

Lemma parse_lines_resolutions (P : string) (l1 l2 : list string) :
  resolutions P l1 = resolutions P l2 -> parse_lines P l1 = parse_lines P l2.
Proof.
  intros H. unfold parse_lines. now rewrite !parse_from_resolutions, H.
Qed.

Lemma resolutions_cons (P l : string) (lines : list string) :
  resolutions P (l :: lines)
  = (resolutions P [l] ++ resolutions P lines)%list.
Proof. unfold resolutions. cbn [flat_map]. now rewrite app_nil_r. Qed.

Lemma rstrip_lf (s : string) : rstrip (s ++ String LF "") = rstrip s.
Proof.
  induction s as [|c s IH]; [reflexivity|].
  cbn [append rstrip]. now rewrite IH.
Qed.

Lemma lstrip_lf (s : string) :
  lstrip (s ++ String LF "")
  = match lstrip s with
    | "" => ""
    | t => t ++ String LF ""
    end.
Proof.
  induction s as [|c s IH]; [reflexivity|].
  cbn [append lstrip]. destruct (is_space c); [exact IH | reflexivity].
Qed.

Lemma strip_lf (s : string) : strip (s ++ String LF "") = strip s.
Proof.
  unfold strip. rewrite lstrip_lf.
  destruct (lstrip s) as [|c t]; [reflexivity|]. apply rstrip_lf.
Qed.

(** a line feed at the end of a line changes nothing for the parser *)
Lemma parse_line_lf (P s : string) :
  parse_line P (s ++ String LF "") = parse_line P s.
Proof. unfold parse_line. now rewrite strip_lf. Qed.

Lemma resolutions_blank (P : string) :
  resolutions P [String LF ""] = [] /\ resolutions P [""] = [].
Proof. split; reflexivity. Qed.

Lemma chomp_shape (l : string) :
  l = chomp l \/ l = chomp l ++ String LF "".
Proof.
  induction l as [|c l IH]; [now left|].
  cbn [chomp]. destruct l as [|d l].
  - destruct (Ascii.eqb_spec c LF) as [->|n]; [now right | now left].
  - destruct IH as [IH|IH]; [left | right]; cbn [append];
      now rewrite <- IH.
Qed.

Lemma parse_line_chomp (P l : string) :
  parse_line P (chomp l) = parse_line P l.
Proof.
  destruct (chomp_shape l) as [H|H]; rewrite H at 2;
    [reflexivity | now rewrite parse_line_lf].
Qed.

Lemma resolutions_chomp (P : string) (lines : list string) :
  resolutions P (map chomp lines) = resolutions P lines.
Proof.
  unfold resolutions. induction lines as [|l lines IH]; [reflexivity|].
  cbn [map flat_map]. now rewrite IH, parse_line_chomp.
Qed.

Lemma split_keepends_nonempty (t : string) :
  Forall (fun l => l <> "") (split_keepends t).
Proof.
  induction t as [|c t IH]; cbn [split_keepends]; [constructor|].
  destruct (Ascii.eqb c LF).
  - constructor; [discriminate | exact IH].
  - destruct (split_keepends t) as [|h r].
    + constructor; [discriminate | constructor].
    + apply Forall_cons_iff in IH as [_ Hr].
      constructor; [discriminate | exact Hr].
Qed.

(** on text whose line boundaries are line feeds, [splitlines] gives
    the lines of [readlines] without their line feeds *)
Lemma splitlines_chomp (t : string) :
  lf_only t = true ->
  splitlines_from false t = map chomp (split_keepends t).
Proof.
  induction t as [|c t IH]; [reflexivity|].
  cbn [lf_only splitlines_from split_keepends andb]. intros H.
  apply andb_true_iff in H as [Hc H]. specialize (IH H).
  destruct (Ascii.eqb c LF) eqn:E.
  - apply Ascii.eqb_eq in E. subst c.
    change (is_linebreak LF) with true. cbn iota.
    change (Ascii.eqb LF CR) with false. now rewrite IH.
  - rewrite orb_false_r in Hc.
    apply negb_true_iff in Hc. rewrite Hc, IH.
    pose proof (split_keepends_nonempty t) as Hne.
    destruct (split_keepends t) as [|h r]; cbn [map chomp].
    + now rewrite E.
    + apply Forall_cons_iff in Hne as [Hh _].
      destruct h as [|d h]; [congruence | reflexivity].
Qed.

Lemma universal_newlines_lf_only (s : string) :
  plain_breaks s = true -> lf_only (universal_newlines s) = true.
Proof.
  enough (G : (plain_breaks s = true -> lf_only (universal_newlines s) = true)
              /\ forall c, plain_breaks (String c s) = true ->
                           lf_only (universal_newlines (String c s)) = true)
    by apply G.
  induction s as [|d s [IH1 IH2]].
  - split; [reflexivity|]. intros c. cbn [plain_breaks universal_newlines].
    intros H. apply andb_true_iff in H as [Hc _].
    destruct (Ascii.eqb c CR) eqn:E; [reflexivity|].
    rewrite orb_false_r in Hc. cbn [lf_only]. now rewrite Hc.
  - split; [apply IH2|]. intros c H.
    change ((negb (is_linebreak c) || Ascii.eqb c LF || Ascii.eqb c CR)
            && plain_breaks (String d s) = true) in H.
    apply andb_true_iff in H as [Hc H].
    pose proof (IH2 d H) as K2.
    assert (K1 : lf_only (universal_newlines s) = true).
    { apply IH1. cbn [plain_breaks] in H.
      now apply andb_true_iff in H as [_ H]. }
    clear H IH1 IH2.
    cbn [universal_newlines]. destruct (Ascii.eqb c CR) eqn:E.
    + destruct (Ascii.eqb d LF) eqn:E2.
      * cbn [lf_only]. change (negb (is_linebreak LF) || Ascii.eqb LF LF)
          with true. cbn [andb]. exact K1.
      * cbn [lf_only]. change (negb (is_linebreak LF) || Ascii.eqb LF LF)
          with true. cbn [andb].
        cbn [universal_newlines] in K2. exact K2.
    + rewrite orb_false_r in Hc. cbn [lf_only]. rewrite Hc. cbn [andb].
      cbn [universal_newlines] in K2. exact K2.
Qed.

Lemma split_keepends_lf_only (t : string) :
  lf_only t = true -> Forall (fun f => lf_only f = true) (split_keepends t).
Proof.
  induction t as [|c t IH]; cbn [lf_only split_keepends]; [constructor|].
  intros H. apply andb_true_iff in H as [Hc H]. specialize (IH H).
  destruct (Ascii.eqb c LF) eqn:E.
  - constructor; [|exact IH]. cbn [lf_only]. now rewrite E, orb_true_r.
  - destruct (split_keepends t) as [|h r].
    + constructor; [|constructor]. cbn [lf_only]. now rewrite E, Hc.
    + apply Forall_cons_iff in IH as [Hh Hr].
      constructor; [|exact Hr]. cbn [lf_only]. now rewrite E, Hc, Hh.
Qed.

Lemma split_keepends_shape (t : string) :
  Forall (fun f => has_char LF (chomp f) = false) (split_keepends t).
Proof.
  induction t as [|c t IH]; cbn [split_keepends]; [constructor|].
  destruct (Ascii.eqb c LF) eqn:E.
  - constructor; [|exact IH]. cbn [chomp]. now rewrite E.
  - pose proof (split_keepends_nonempty t) as Hne.
    destruct (split_keepends t) as [|h r].
    + constructor; [|constructor]. cbn [chomp]. rewrite E.
      cbn [has_char]. now rewrite E.
    + apply Forall_cons_iff in IH as [Hh Hr].
      apply Forall_cons_iff in Hne as [Hn _].
      constructor; [|exact Hr].
      destruct h as [|d h]; [congruence|].
      change (chomp (String c (String d h)))
        with (String c (chomp (String d h))).
      cbn [has_char]. now rewrite E, Hh.
Qed.

Lemma lf_only_app (a b : string) :
  lf_only (a ++ b) = lf_only a && lf_only b.
Proof.
  induction a as [|c a IH]; [reflexivity|].
  cbn [append lf_only]. now rewrite IH, andb_assoc.
Qed.

Lemma lf_only_join (l : list string) :
  Forall (fun f => lf_only f = true) l ->
  lf_only (join (String LF "") l) = true.
Proof.
  induction 1 as [|f l Hf Hl IH]; [reflexivity|].
  destruct l as [|g l]; [exact Hf|].
  change (join (String LF "") (f :: g :: l))
    with (f ++ String LF (join (String LF "") (g :: l))).
  rewrite lf_only_app, Hf. cbn [lf_only andb].
  change (negb (is_linebreak LF) || Ascii.eqb LF LF) with true.
  exact IH.
Qed.

Lemma lf_only_no_cr (s : string) : lf_only s = true -> has_char CR s = false.
Proof.
  induction s as [|c s IH]; [reflexivity|].
  cbn [lf_only has_char]. intros H. apply andb_true_iff in H as [Hc H].
  rewrite (IH H), orb_false_r.
  destruct (Ascii.eqb_spec c CR) as [->|n]; [discriminate Hc | reflexivity].
Qed.

(** the lines read back, but for their line feeds and the blank lines
    between them, are the lines written *)
Lemma resolutions_split_join (P : string) (l : list string) :
  Forall (fun f => has_char LF (chomp f) = false) l ->
  resolutions P (split_keepends (join (String LF "") l)) = resolutions P l.
Proof.
  induction 1 as [|f l Hf Hl IH]; [reflexivity|].
  destruct l as [|g l].
  - cbn [join]. destruct (chomp_shape f) as [E|E].
    + rewrite <- E in Hf. destruct f as [|c f]; [reflexivity|].
      now rewrite split_keepends_last.
    + rewrite E at 1. rewrite (split_keepends_line _ _ Hf).
      cbn [split_keepends]. now rewrite <- E.
  - change (join (String LF "") (f :: g :: l))
      with (f ++ String LF (join (String LF "") (g :: l))).
    rewrite (resolutions_cons P f).
    destruct (chomp_shape f) as [E|E].
    + rewrite <- E in Hf. rewrite (split_keepends_line _ _ Hf).
      rewrite resolutions_cons, IH. f_equal.
      unfold resolutions. cbn [flat_map]. now rewrite parse_line_lf.
    + rewrite E at 1. rewrite app_assoc.
      change (String LF "" ++ String LF (join (String LF "") (g :: l)))
        with (String LF (String LF (join (String LF "") (g :: l)))).
      rewrite (split_keepends_line _ _ Hf), <- E.
      cbn [split_keepends]. rewrite Ascii.eqb_refl.
      rewrite resolutions_cons, (resolutions_cons P (String LF "")), IH.
      reflexivity.
Qed.

(** X13: a run of the Extractor on a file whose line boundaries are
    line feeds and carriage returns: the lines it filters keep their
    line feeds, so the text it writes has blank lines between the kept
    lines; all the same the Builder, reading that text with the same
    prefix, builds the registry of the whole file, which is also the
    registry it builds when it reads the file itself. *)
Theorem file_run_feeds_builder (a : args)
  (read : string -> option string) (git : list string -> option string)
  (path content : string) :
  regex_literal (prefix a) = true ->
  from_file a = Some path -> path <> "" -> read path = Some content ->
  plain_breaks content = true ->
  ExtractorSource.line_source a read git = Some (readlines content)
  /\ read_merge_lines content = map chomp (readlines content)
  /\ parse_lines (prefix a) (read_merge_lines content)
     = parse_lines (prefix a) (readlines content)
  /\ parse_lines (prefix a)
       (read_merge_lines
          (join (String LF "")
             (extract_lines (readlines content) (prefix a))))
     = parse_lines (prefix a) (readlines content).
Proof.
  intros _ Hf Hp Hr Hc.
  pose proof (universal_newlines_lf_only _ Hc) as Hu.
  assert (R : read_merge_lines content = map chomp (readlines content)).
  { unfold read_merge_lines, splitlines, readlines.
    now apply splitlines_chomp. }
  split; [|split; [exact R|split]].
  - unfold ExtractorSource.line_source. rewrite Hf.
    destruct path; [congruence|]. now rewrite Hr.
  - apply parse_lines_resolutions. rewrite R. apply resolutions_chomp.
  - set (kept := extract_lines (readlines content) (prefix a)).
    assert (Hk : Forall (fun f => lf_only f = true
                                  /\ has_char LF (chomp f) = false) kept).
    { apply Forall_forall. intros f Hin.
      apply extract_lines_In in Hin as [Hin _]. unfold readlines in Hin.
      split.
      - exact (proj1 (Forall_forall _ _) (split_keepends_lf_only _ Hu) f Hin).
      - exact (proj1 (Forall_forall _ _) (split_keepends_shape _) f Hin). }
    assert (Hj : lf_only (join (String LF "") kept) = true).
    { apply lf_only_join. eapply Forall_impl; [|exact Hk]. now intros f [H _]. }
    transitivity (parse_lines (prefix a) kept).
    + apply parse_lines_resolutions.
      unfold read_merge_lines, splitlines.
      rewrite (universal_newlines_id _ (lf_only_no_cr _ Hj)).
      rewrite (splitlines_chomp _ Hj), resolutions_chomp.
      apply resolutions_split_join.
      eapply Forall_impl; [|exact Hk]. now intros f [_ H].
    + unfold kept, parse_lines, extract_lines. apply parse_from_filter.
      intros line k b. apply resolved_is_kept.
Qed.

(** the theorem at a file of two lines, each with its line feed *)
Lemma file_run_feeds_builder_witness :
  let content :=
    "1a2b3c4 Merge branch 'bugfix/WEBDEV-42' into develop" ++ String LF ""
    ++ "5d6e7f8 Merge branch 'feature/WEBDEV-7' into develop"
    ++ String LF "" in
  parse_lines "WEBDEV"
    (read_merge_lines
       (join (String LF "") (extract_lines (readlines content) "WEBDEV")))
  = parse_lines "WEBDEV" (readlines content).
Proof.
  cbv zeta.
  refine (proj2 (proj2 (proj2
            (file_run_feeds_builder
               {| since := None; max := 500; prefix := "WEBDEV";
                  from_file := Some "log.txt"; output := None |}
               (fun _ => Some
                  ("1a2b3c4 Merge branch 'bugfix/WEBDEV-42' into develop"
                   ++ String LF ""
                   ++ "5d6e7f8 Merge branch 'feature/WEBDEV-7' into develop"
                   ++ String LF ""))
               (fun _ => None) "log.txt" _
               eq_refl eq_refl _ eq_refl eq_refl)))).
  discriminate.
Defined.

End MorePipeline.
